(** * The polling components of the trading dashboard

    A shallow embedding of the two React components that poll the backend,
    [PriceTicker] and [Leaderboard], and of the part of their run time
    they rely on: JavaScript numbers (IEEE 754 binary64, here Rocq's
    primitive floats), [Number.prototype.toFixed], and the life cycle of a
    function component with one [useEffect] that starts a fetch and arms a
    [setInterval].

    Layout: [JS] (numbers and strings), [React] (state, effect, timer and
    in-flight requests as an event-driven machine), [PriceTicker],
    [Leaderboard], then the properties. *)

From Stdlib Require Import ZArith NArith List String Ascii Bool Lia.
From Stdlib Require Import Floats DecimalString DecimalN.
Import ListNotations.

Local Open Scope string_scope.

(** ** JavaScript values *)

Module JS.

(** A [number] is a binary64 float. *)
Definition number : Set := float.

(** [ToBoolean] on a number: [+0], [-0] and [NaN] are falsy. *)
Definition ToBoolean (x : number) : bool :=
  negb (PrimFloat.is_zero x || PrimFloat.is_nan x).

(** [Object.is] on numbers, the comparison React applies to the entries
    of a dependency array: [NaN] is itself, [+0] is not [-0]. *)
Definition SameValue (x y : number) : bool := PrimFloat.Leibniz.eqb x y.

(** [v || null] for [v : number | undefined]. *)
Definition or_null (v : option number) : option number :=
  match v with
  | Some x => if ToBoolean x then Some x else None
  | None => None
  end.

(** [x >= y]; false as soon as one side is [NaN]. *)
Definition ge (x y : number) : bool := (y <=? x)%float.

(** Truthiness of a string: only the empty string is falsy. *)
Definition truthy_string (s : string) : bool :=
  match s with EmptyString => false | String _ _ => true end.

(** Truthiness of [e : string | null]. *)
Definition truthy_message (e : option string) : bool :=
  match e with Some s => truthy_string s | None => false end.

(** Decimal digits of a non-negative integer, ["0"] for zero. *)
Definition digits (n : N) : string := NilZero.string_of_uint (N.to_uint n).

(** Reading a decimal numeral back. *)
Definition parse_digits (s : string) : option N :=
  option_map N.of_uint (NilZero.uint_of_string s).

Fixpoint zeros (k : nat) : list ascii :=
  match k with O => [] | S k' => "0"%char :: zeros k' end.

Definition is_digit (c : ascii) : bool :=
  (48 <=? nat_of_ascii c)%nat && (nat_of_ascii c <=? 57)%nat.

(** A numeral with exactly [f] decimal places: an optional minus sign,
    at least one digit, a point, [f] digits. *)
Definition fixed_point (f : nat) (s : string) : Prop :=
  exists (sign : string) (int frac : list ascii),
    s = sign ++ string_of_list_ascii int ++ "." ++ string_of_list_ascii frac /\
    (sign = "" \/ sign = "-") /\
    int <> [] /\ List.length frac = f /\
    forallb is_digit int = true /\ forallb is_digit frac = true.

(** The parts of the host that are used but not modelled: the exponent
    notation of [Number::toString], to which [toFixed] falls back from
    10^21 on, and [toLocaleString('en-US', {minimumFractionDigits: 2,
    maximumFractionDigits: 2})]. *)
Record Host : Type := {
  NumberToString : number -> string;
  toLocaleString : number -> string
}.

Section ToFixed.

Local Open Scope Z_scope.

(** For the real [x = m * 2^e > 0]: the integer [n] for which
    [n / 10^f - x] is as close to zero as possible, the larger one when
    there are two. *)
Definition nearest_scaled (m : positive) (e : Z) (f : nat) : Z :=
  let y := Z.pos m * 10 ^ Z.of_nat f in
  if 0 <=? e then y * 2 ^ e
  else (2 * y + 2 ^ (- e)) / (2 * 2 ^ (- e)).

(** [m * 2^e >= 10^21]. *)
Definition at_least_1e21 (m : positive) (e : Z) : bool :=
  if 0 <=? e then 10 ^ 21 <=? Z.pos m * 2 ^ e
  else 10 ^ 21 * 2 ^ (- e) <=? Z.pos m.

(** Steps 11.b-11.c of [toFixed]: the digits of [n], padded on the left
    with zeros to [f + 1] characters, with a point before the last
    [f]. *)
Definition point_fixed (n : Z) (f : nat) : string :=
  let m := list_ascii_of_string (digits (Z.to_N n)) in
  match f with
  | O => string_of_list_ascii m
  | S _ =>
      let k := List.length m in
      let m := if (k <=? f)%nat then (zeros (f + 1 - k) ++ m)%list else m in
      let k := List.length m in
      string_of_list_ascii
        (firstn (k - f) m ++ "."%char :: skipn (k - f) m)%list
  end.

(** [x] is finite and its magnitude is below 10^21. *)
Definition below_1e21 (x : number) : bool :=
  match Prim2SF x with
  | S754_zero _ => true
  | S754_finite _ m e => negb (at_least_1e21 m e)
  | _ => false
  end.

(** [x.toFixed(f)] for [0 <= f <= 100]. *)
Definition toFixed (host : Host) (x : number) (f : nat) : string :=
  match Prim2SF x with
  | S754_nan => "NaN"
  | S754_infinity false => "Infinity"
  | S754_infinity true => "-Infinity"
  | S754_zero _ => point_fixed 0 f
  | S754_finite s m e =>
      ((if s then "-" else "") ++
       (if at_least_1e21 m e then NumberToString host (PrimFloat.abs x)
        else point_fixed (nearest_scaled m e f) f))%string
  end.

(** The integer a string of decimal digits writes. *)
Definition numeral_value (l : list ascii) : Z :=
  fold_left (fun acc c => 10 * acc + (Z.of_nat (nat_of_ascii c) - 48)) l 0.

(** [n] is the integer for which [n / 10^f - m * 2^e] is as close to zero
    as possible, the larger one when there are two:
    [n - 1/2 <= m * 2^e * 10^f < n + 1/2], cleared of fractions. *)
Definition nearest_to (m : positive) (e : Z) (f : nat) (n : Z) : Prop :=
  let d := 2 ^ Z.max 0 (- e) in
  let y := Z.pos m * 2 ^ Z.max 0 e * 10 ^ Z.of_nat f in
  2 * n * d <= 2 * y + d < 2 * (n + 1) * d.

(** No zero stands in front of another digit. *)
Definition no_leading_zero (int : list ascii) : Prop :=
  match int with
  | c :: _ :: _ => c <> "0"%char
  | _ => True
  end.

(** [s] is the numeral with [f] decimals nearest to the finite number
    [x]: a minus sign when [x] is negative, then the digits of the nearest
    integer to [|x| * 10^f] with a point before the last [f], and no zero
    in front of the integer part. *)
Definition prints_nearest (f : nat) (x : number) (s : string) : Prop :=
  exists (n : Z) (int frac : list ascii),
    match Prim2SF x with
    | S754_zero _ =>
        n = 0 /\
        s = (string_of_list_ascii int ++ "." ++ string_of_list_ascii frac)%string
    | S754_finite sg m e =>
        nearest_to m e f n /\
        s = ((if sg then "-" else "") ++
             string_of_list_ascii int ++ "." ++ string_of_list_ascii frac)%string
    | _ => False
    end /\
    int <> [] /\ no_leading_zero int /\ List.length frac = f /\
    forallb is_digit int = true /\ forallb is_digit frac = true /\
    numeral_value (int ++ frac) = n.

End ToFixed.

(** *** Strings

    A string of the model holds the UTF-8 bytes of a JavaScript string (a
    lone surrogate as its three bytes); JavaScript counts UTF-16 code
    units: one for a character of one, two or three bytes, two for a
    character of four bytes. *)

(** The three bytes of the high surrogate of the character whose four
    bytes are [b0 b1 b2 b3]. *)
Definition high_surrogate (b0 : ascii) (rest : list ascii) : list ascii :=
  let byte k := N_of_ascii (nth k rest Ascii.zero) in
  let cp := (N.land (N_of_ascii b0) 7 * 262144 + N.land (byte 0%nat) 63 * 4096
             + N.land (byte 1%nat) 63 * 64 + N.land (byte 2%nat) 63)%N in
  let h := (55296 + (cp - 65536) / 1024)%N in
  [ascii_of_N 237; ascii_of_N (128 + N.land (h / 64) 63);
   ascii_of_N (128 + N.land h 63)].

(** The bytes of [s.substring(0, n)], [s] given by its bytes. *)
Fixpoint take_units (n : nat) (s : list ascii) {struct n} : list ascii :=
  match n, s with
  | O, _ => []
  | _, [] => []
  | S n', b :: rest =>
      let v := nat_of_ascii b in
      if (v <? 192)%nat then b :: take_units n' rest
      else if (v <? 224)%nat
      then (b :: firstn 1 rest ++ take_units n' (skipn 1 rest))%list
      else if (v <? 240)%nat
      then (b :: firstn 2 rest ++ take_units n' (skipn 2 rest))%list
      else match n' with
           | O => high_surrogate b rest
           | S n'' => (b :: firstn 3 rest ++ take_units n'' (skipn 3 rest))%list
           end
  end.

(** [s.substring(0, n)] *)
Definition substring_0 (n : nat) (s : string) : string :=
  string_of_list_ascii (take_units n (list_ascii_of_string s)).


End JS.

(** ** A function component with one polling effect *)

Module React.

(** What [axios.get] rejects with: no response at all, or a response
    whose status is outside 2xx. *)
Inductive AxiosError : Set :=
| NetworkError (message : string)
| BadStatus (status : N) (message : string).

Inductive Outcome (P : Type) : Type :=
| Resolved (data : P)
| Rejected (err : AxiosError).
Arguments Resolved {P} data.
Arguments Rejected {P} err.

(** What the body of a fetch function does once its [await] is over, in
    program order: calls of [console.error] and of [useState] setters. *)
Inductive Cmd (Setter : Type) : Type :=
| ConsoleError (label : string) (err : AxiosError)
| Call (s : Setter).
Arguments ConsoleError {Setter} label err.
Arguments Call {Setter} s.

(** A component: its [useState] cells, the variables of a render its
    effect closes over, the dependency array, and the fetch function the
    effect defines. *)
Record Component : Type := {
  State : Type;
  Payload : Type;
  Setter : Type;
  Captured : Type;
  Deps : Type;
  initial : State;
  set : Setter -> State -> State;
  capture : State -> Captured;
  deps : State -> Deps;
  same_deps : Deps -> Deps -> bool;
  fetch : Captured -> Outcome Payload -> list (Cmd Setter)
}.

Inductive Lifecycle : Set := Fresh | Mounted | Unmounted.

(** The effect of the last render that ran it: the id [setInterval]
    returned, the variables its fetch function closed over, and the
    dependencies of that render. *)
Record Effect (C : Component) : Type := {
  timer : nat;
  closure : Captured C;
  armed : Deps C
}.
Arguments timer {C} _.
Arguments closure {C} _.
Arguments armed {C} _.

(** A request awaiting its response: the effect whose fetch function
    issued it, and what that function closed over. *)
Record Request (C : Component) : Type := {
  issuer : nat;
  seen : Captured C
}.
Arguments issuer {C} _.
Arguments seen {C} _.

Record World (C : Component) : Type := {
  lifecycle : Lifecycle;
  state : State C;
  effect : option (Effect C);
  inflight : list (Request C);
  next_timer : nat;
  console : list (string * AxiosError)
}.
Arguments lifecycle {C} _.
Arguments state {C} _.
Arguments effect {C} _.
Arguments inflight {C} _.
Arguments next_timer {C} _.
Arguments console {C} _.

(** What happens to a component: it is mounted, the interval [id]
    fires, the [i]-th request in flight is answered, it is unmounted. *)
Inductive Event (P : Type) : Type :=
| Mount
| Tick (id : nat)
| Settle (i : nat) (o : Outcome P)
| Unmount.
Arguments Mount {P}.
Arguments Tick {P} id.
Arguments Settle {P} i o.
Arguments Unmount {P}.

Section Machine.

Context {C : Component}.

Definition boot : World C :=
  {| lifecycle := Fresh; state := initial C; effect := None;
     inflight := []; next_timer := 0; console := [] |}.

(** Calling the fetch function of an effect: the request leaves, the
    function is suspended at its [await]. *)
Definition issue (id : nat) (c : Captured C) (w : World C) : World C :=
  {| lifecycle := lifecycle w; state := state w; effect := effect w;
     inflight := inflight w ++ [{| issuer := id; seen := c |}];
     next_timer := next_timer w; console := console w |}.

(** The body of the effect, for the render of [state w]: define the
    fetch function, call it once, arm the interval. *)
Definition run_effect (w : World C) : World C :=
  let id := next_timer w in
  let c := capture C (state w) in
  let w := issue id c w in
  {| lifecycle := lifecycle w; state := state w;
     effect := Some {| timer := id; closure := c;
                       armed := deps C (state w) |};
     inflight := inflight w;
     next_timer := S id; console := console w |}.

(** The function the effect returns: [clearInterval(interval)]. *)
Definition cleanup (w : World C) : World C :=
  {| lifecycle := lifecycle w; state := state w; effect := None;
     inflight := inflight w; next_timer := next_timer w;
     console := console w |}.

Definition with_lifecycle (l : Lifecycle) (w : World C) : World C :=
  {| lifecycle := l; state := state w; effect := effect w;
     inflight := inflight w; next_timer := next_timer w;
     console := console w |}.

(** One command of a fetch function. React performs a state update
    only on a component that is mounted; [console.error] always
    prints. *)
Definition exec (w : World C) (c : Cmd (Setter C)) : World C :=
  match c with
  | ConsoleError label err =>
      {| lifecycle := lifecycle w; state := state w; effect := effect w;
         inflight := inflight w; next_timer := next_timer w;
         console := console w ++ [(label, err)] |}
  | Call s =>
      match lifecycle w with
      | Mounted =>
          {| lifecycle := lifecycle w; state := set C s (state w);
             effect := effect w; inflight := inflight w;
             next_timer := next_timer w; console := console w |}
      | _ => w
      end
  end.

(** After the updates React renders again; when an entry of the
    dependency array is no longer the same value, the effect of the
    previous render is cleaned up and the effect runs anew. *)
Definition commit (w : World C) : World C :=
  match lifecycle w, effect w with
  | Mounted, Some e =>
      if same_deps C (armed e) (deps C (state w)) then w
      else run_effect (cleanup w)
  | _, _ => w
  end.

Fixpoint remove_nth {A : Type} (i : nat) (l : list A) : list A :=
  match i, l with
  | _, [] => []
  | O, _ :: l' => l'
  | S i', x :: l' => x :: remove_nth i' l'
  end.

Definition take_request (i : nat) (w : World C) : World C :=
  {| lifecycle := lifecycle w; state := state w; effect := effect w;
     inflight := remove_nth i (inflight w);
     next_timer := next_timer w; console := console w |}.

(** One event. An event that cannot happen leaves the world as it is:
    the tick of an interval that has been cleared, the response to a
    request that does not exist, a second mount. *)
Definition step (w : World C) (ev : Event (Payload C)) : World C :=
  match ev with
  | Mount =>
      match lifecycle w with
      | Fresh => run_effect (with_lifecycle Mounted w)
      | _ => w
      end
  | Tick id =>
      match effect w with
      | Some e => if Nat.eqb (timer e) id then issue id (closure e) w else w
      | None => w
      end
  | Settle i o =>
      match nth_error (inflight w) i with
      | Some r =>
          commit (fold_left exec (fetch C (seen r) o) (take_request i w))
      | None => w
      end
  | Unmount =>
      match lifecycle w with
      | Mounted => cleanup (with_lifecycle Unmounted w)
      | _ => w
      end
  end.

Definition run (w : World C) (evs : list (Event (Payload C))) : World C :=
  fold_left step evs w.

(** The setter calls of a fetch function applied to the state of a
    mounted component. *)
Definition apply_cmd (s : State C) (c : Cmd (Setter C)) : State C :=
  match c with
  | ConsoleError _ _ => s
  | Call x => set C x s
  end.

Definition apply_all (cs : list (Cmd (Setter C))) (s : State C) : State C :=
  fold_left apply_cmd cs s.

(** The next poll of a component whose requests do not overlap: when
    no request is in flight the live interval fires and its callback
    issues one; then the request at the head is answered. *)
Definition poll (w : World C) (o : Outcome (Payload C)) : World C :=
  let w :=
    match inflight w, effect w with
    | [], Some e => step w (Tick (timer e))
    | _, _ => w
    end in
  step w (Settle 0 o).

Definition polls (w : World C) (os : list (Outcome (Payload C)))
    : World C :=
  fold_left poll os w.

(** Interval ids are handed out in increasing order. *)
Definition timers_ok (w : World C) : Prop :=
  forall e, effect w = Some e -> timer e < next_timer w.

(** The interval [id] was armed once and has been cleared since. *)
Definition cleared (id : nat) (w : World C) : Prop :=
  id < next_timer w /\ forall e, effect w = Some e -> timer e <> id.

(** An interval is live exactly while the component is mounted. *)
Definition live_while_mounted (w : World C) : Prop :=
  match lifecycle w with
  | Mounted => effect w <> None
  | _ => effect w = None
  end.

(** What a list of commands prints with [console.error]. *)
Definition logged (cs : list (Cmd (Setter C))) : list (string * AxiosError) :=
  flat_map (fun c => match c with
                     | ConsoleError label err => [(label, err)]
                     | Call _ => []
                     end) cs.

End Machine.

(** The payloads of a list of answers, in the order they arrived: the
    last one and the one before it. *)
Definition history {P : Type} (os : list (Outcome P)) : option P * option P :=
  fold_left (fun h o => match o with
                        | Resolved d => (Some d, fst h)
                        | Rejected _ => h
                        end) os (None, None).

(** Whether the last answer of a list was a failure. *)
Definition failed_last {P : Type} (os : list (Outcome P)) : bool :=
  match last (map Some os) None with
  | Some (Rejected _) => true
  | _ => false
  end.

Arguments boot : clear implicits.

End React.

(** ** The price ticker *)

Module PriceTicker.

Import React.

Record PriceData : Set := {
  symbol : string;
  price : JS.number;
  bid : JS.number;
  ask : JS.number;
  high : JS.number;
  low : JS.number;
  volume : JS.number;
  timestamp : JS.number
}.

(** The four [useState] cells. *)
Record State : Set := {
  priceData : option PriceData;
  previousPrice : option JS.number;
  loading : bool;
  error : option string
}.

Definition initial : State :=
  {| priceData := None; previousPrice := None; loading := true;
     error := None |}.

Inductive Setter : Set :=
| setPriceData (v : option PriceData)
| setPreviousPrice (v : option JS.number)
| setLoading (v : bool)
| setError (v : option string).

Definition set (c : Setter) (s : State) : State :=
  match c with
  | setPriceData v =>
      {| priceData := v; previousPrice := previousPrice s;
         loading := loading s; error := error s |}
  | setPreviousPrice v =>
      {| priceData := priceData s; previousPrice := v;
         loading := loading s; error := error s |}
  | setLoading v =>
      {| priceData := priceData s; previousPrice := previousPrice s;
         loading := v; error := error s |}
  | setError v =>
      {| priceData := priceData s; previousPrice := previousPrice s;
         loading := loading s; error := v |}
  end.

(** [fetchPrice], from the [await] on. Its free variable [priceData] is
    the one of the render whose effect defined the function. *)
Definition fetchPrice (priceData : option PriceData)
    (response : Outcome PriceData) : list (Cmd Setter) :=
  match response with
  | Resolved data =>
      [ Call (setPreviousPrice (JS.or_null (option_map price priceData)));
        Call (setPriceData (Some data));
        Call (setLoading false);
        Call (setError None) ]
  | Rejected err =>
      [ ConsoleError "Error fetching price:" err;
        Call (setError (Some "Failed to fetch price data"));
        Call (setLoading false) ]
  end.

(** The dependency array [[priceData?.price]]. *)
Definition deps (s : State) : option JS.number :=
  option_map price (priceData s).

Definition same_deps (a b : option JS.number) : bool :=
  match a, b with
  | None, None => true
  | Some x, Some y => JS.SameValue x y
  | _, _ => false
  end.

Definition component : Component :=
  {| React.State := State;
     React.Payload := PriceData;
     React.Setter := Setter;
     React.Captured := option PriceData;
     React.Deps := option JS.number;
     React.initial := initial;
     React.set := set;
     React.capture := priceData;
     React.deps := deps;
     React.same_deps := same_deps;
     React.fetch := fetchPrice |}.

(** The worlds of a run without overlap: the component is mounted, the
    closure of the live effect holds a payload with the price on
    display, and at most the one request of that closure is in
    flight. *)
Definition in_step (w : World component) : Prop :=
  lifecycle w = Mounted /\
  exists e, effect w = Some e /\
    armed e = option_map price (closure e) /\
    armed e = deps (state w) /\
    (inflight w = [] \/
     inflight w = [{| issuer := timer e; seen := closure e |}]).

(** What every run keeps: a previous price is never falsy, and comes with
    a current payload. *)
Definition previous_ok (s : State) : Prop :=
  match previousPrice s with
  | Some p => JS.ToBoolean p = true /\ priceData s <> None
  | None => True
  end.

(** What every run keeps, overlap or not: the fetch function of the live
    effect closes over a payload with the price on display. *)
Definition fresh_closure (w : World component) : Prop :=
  forall e, effect w = Some e ->
    armed e = deps (state w) /\ armed e = option_map price (closure e).

(** *** What a render computes from the state *)

(** [priceData && previousPrice ? priceData.price - previousPrice : 0] *)
Definition priceChange (s : State) : JS.number :=
  match priceData s, previousPrice s with
  | Some d, Some p =>
      if JS.ToBoolean p then (price d - p)%float else 0%float
  | _, _ => 0%float
  end.

(** [priceData && previousPrice
      ? ((priceChange / previousPrice) * 100).toFixed(2) : '0.00'] *)
Definition priceChangePercent (host : JS.Host) (s : State) : string :=
  match priceData s, previousPrice s with
  | Some _, Some p =>
      if JS.ToBoolean p
      then JS.toFixed host ((priceChange s / p) * 100)%float 2
      else "0.00"
  | _, _ => "0.00"
  end.

(** [priceChange >= 0] *)
Definition isPositive (s : State) : bool := JS.ge (priceChange s) 0%float.

Inductive Icon : Set := TrendingUp | TrendingDown.

(** The indicator next to the price. *)
Record Delta : Set := {
  delta_class : string;
  delta_icon : Icon;
  delta_text : string
}.

Record Card : Set := {
  card_symbol : string;
  card_price : string;
  card_delta : option Delta;
  card_bid : string;
  card_ask : string;
  card_high : string;
  card_low : string;
  card_volume : string
}.

Record View : Set := {
  loading_line : option string;
  error_line : option string;
  card : option Card
}.

Definition render_delta (host : JS.Host) (s : State) : option Delta :=
  match previousPrice s with
  | Some _ =>
      Some {| delta_class :=
                "flex items-center gap-1 " ++
                (if isPositive s then "text-green-400" else "text-red-400");
              delta_icon := if isPositive s then TrendingUp else TrendingDown;
              delta_text :=
                (if isPositive s then "+" else "") ++
                priceChangePercent host s ++ "%" |}
  | None => None
  end.

Definition render (host : JS.Host) (s : State) : View :=
  {| loading_line :=
       match priceData s with
       | None => if loading s then Some "Loading price data..." else None
       | Some _ => None
       end;
     error_line := if JS.truthy_message (error s) then error s else None;
     card :=
       match priceData s with
       | Some d =>
           Some {| card_symbol := symbol d;
                   card_price := "$" ++ JS.toLocaleString host (price d);
                   card_delta := render_delta host s;
                   card_bid := "$" ++ JS.toLocaleString host (bid d);
                   card_ask := "$" ++ JS.toLocaleString host (ask d);
                   card_high := "$" ++ JS.toLocaleString host (high d);
                   card_low := "$" ++ JS.toLocaleString host (low d);
                   card_volume :=
                     JS.toLocaleString host (volume d) ++ " BTC" |}
       | None => None
       end |}.

(** The indicator a render shows, if any. *)
Definition indicator (host : JS.Host) (s : State) : option Delta :=
  match card (render host s) with
  | Some c => card_delta c
  | None => None
  end.

End PriceTicker.

(** ** The leaderboard *)

Module Leaderboard.

Import React.

Record Trader : Set := {
  trader_id : string;
  name : string;
  roi : JS.number;
  portfolio_value : JS.number
}.

Record LeaderboardResponse : Set := {
  top_traders : list Trader;
  count : JS.number
}.

Record State : Set := {
  traders : list Trader;
  loading : bool;
  error : option string
}.

Definition initial : State :=
  {| traders := []; loading := true; error := None |}.

Inductive Setter : Set :=
| setTraders (v : list Trader)
| setLoading (v : bool)
| setError (v : option string).

Definition set (c : Setter) (s : State) : State :=
  match c with
  | setTraders v => {| traders := v; loading := loading s; error := error s |}
  | setLoading v => {| traders := traders s; loading := v; error := error s |}
  | setError v => {| traders := traders s; loading := loading s; error := v |}
  end.

(** [fetchLeaderboard], from the [await] on; it has no free state
    variable. *)
Definition fetchLeaderboard (_ : unit)
    (response : Outcome LeaderboardResponse) : list (Cmd Setter) :=
  match response with
  | Resolved data =>
      [ Call (setTraders (top_traders data));
        Call (setLoading false);
        Call (setError None) ]
  | Rejected err =>
      [ ConsoleError "Error fetching leaderboard:" err;
        Call (setError (Some "Failed to fetch leaderboard"));
        Call (setLoading false) ]
  end.

(** The dependency array is empty: the effect runs once, on mount. *)
Definition component : Component :=
  {| React.State := State;
     React.Payload := LeaderboardResponse;
     React.Setter := Setter;
     React.Captured := unit;
     React.Deps := unit;
     React.initial := initial;
     React.set := set;
     React.capture := fun _ => tt;
     React.deps := fun _ => tt;
     React.same_deps := fun _ _ => true;
     React.fetch := fetchLeaderboard |}.

(** What every run of the leaderboard keeps: its effect is never run a
    second time, so while it is mounted interval 0 is the live one. *)
Definition armed_once (w : World component) : Prop :=
  match lifecycle w with
  | Fresh => next_timer w = 0
  | Mounted => exists e, effect w = Some e /\ timer e = 0
  | Unmounted => True
  end.

(** What every run of the leaderboard keeps: one interval at most is ever
    armed, and every request comes from the one effect. *)
Definition single_interval (w : World component) : Prop :=
  match lifecycle w with
  | Fresh => next_timer w = 0 /\ effect w = None /\ inflight w = []
  | Mounted => next_timer w = 1 /\ exists e, effect w = Some e /\ timer e = 0
  | Unmounted => next_timer w = 1 /\ effect w = None
  end /\
  Forall (fun r => issuer r = 0) (inflight w).

(** *** Rendering *)

(** The two elements [getRankIcon] returns: a [Trophy] icon or a [span]
    with a text. *)
Inductive Badge : Set :=
| Trophy (className : string)
| Span (className : string) (text : string).

(** [index] is the position [Array.prototype.map] passes. *)
Definition getRankIcon (index : N) : Badge :=
  match index with
  | 0%N => Trophy "w-5 h-5 text-yellow-400"
  | 1%N => Trophy "w-5 h-5 text-slate-400"
  | 2%N => Trophy "w-5 h-5 text-amber-600"
  | _ => Span "text-slate-400 font-semibold" ("#" ++ JS.digits (index + 1))
  end.

Record Row : Set := {
  key : string;
  row_rank : Badge;
  row_name : string;
  row_id : string;
  row_roi : string;
  row_value : string
}.

Definition render_row (host : JS.Host) (trader : Trader) (index : N) : Row :=
  {| key := trader_id trader;
     row_rank := getRankIcon index;
     row_name := name trader;
     row_id := "ID: " ++ JS.substring_0 8 (trader_id trader) ++ "...";
     row_roi := JS.toFixed host (roi trader) 2 ++ "%";
     row_value := "$" ++ JS.toLocaleString host (portfolio_value trader) |}.

(** [l.map((x, index) => f x index)], counting from [index]. *)
Fixpoint map_from {A B : Type} (f : A -> N -> B) (index : N) (l : list A)
    : list B :=
  match l with
  | [] => []
  | x :: l' => f x index :: map_from f (N.succ index) l'
  end.

Record View : Set := {
  loading_line : option string;
  error_line : option string;
  empty_line : option string;
  rows : list Row
}.

Definition render (host : JS.Host) (s : State) : View :=
  {| loading_line :=
       match traders s with
       | [] => if loading s then Some "Loading leaderboard..." else None
       | _ :: _ => None
       end;
     error_line := if JS.truthy_message (error s) then error s else None;
     empty_line :=
       match traders s with
       | [] =>
           if negb (loading s) && negb (JS.truthy_message (error s))
           then Some "No traders found. Register some traders to see the leaderboard!"
           else None
       | _ :: _ => None
       end;
     rows :=
       match traders s with
       | [] => []
       | _ :: _ => map_from (render_row host) 0 (traders s)
       end |}.

End Leaderboard.

(** ** The navigation bar *)

Module Navbar.

(** [isActive], with [location.pathname] as its first argument:
    [location.pathname === path]. *)
Definition isActive (pathname path : string) : bool := String.eqb pathname path.

Record Link : Set := {
  to : string;
  className : string;
  label : string
}.

Definition nav_class (active : bool) : string :=
  "flex items-center gap-2 px-4 py-2 rounded-lg transition-all duration-200 " ++
  (if active then "bg-white/20 text-white"
   else "text-slate-300 hover:bg-white/10 hover:text-white").

(** The three links of the bar: the brand, then the two entries. *)
Definition render (pathname : string) : list Link :=
  [ {| to := "/"; className := "text-2xl font-bold text-white";
       label := "AlgoTrading" |};
    {| to := "/"; className := nav_class (isActive pathname "/");
       label := "Dashboard" |};
    {| to := "/screener"; className := nav_class (isActive pathname "/screener");
       label := "Screener" |} ].

(** The entries a render highlights. *)
Definition highlighted (pathname : string) : list string :=
  map label
    (filter (fun l => String.eqb (className l) (nav_class true))
       (render pathname)).

End Navbar.

(** ** Sample data *)

Module Sample.

Import PriceTicker Leaderboard.

(** A payload of the price endpoint quoting [p]. *)
Definition quote (p : JS.number) : PriceData :=
  {| symbol := "BTCUSDT"; price := p; bid := p; ask := p; high := p;
     low := p; volume := 12%float; timestamp := 1700000000%float |}.

Definition trader (id : string) (r : JS.number) : Trader :=
  {| trader_id := id; name := id; roi := r;
     portfolio_value := 1000%float |}.

(** The server's order: A (roi 10), B (roi 20), C (roi 5). *)
Definition board : LeaderboardResponse :=
  {| top_traders :=
       [trader "A" 10%float; trader "B" 20%float; trader "C" 5%float];
     count := 3%float |}.


Definition timeout : React.AxiosError :=
  React.NetworkError "timeout of 0ms exceeded".

(** A host for the samples; none of them reaches its two functions. *)
Definition host : JS.Host :=
  {| JS.NumberToString := fun _ => "NaN";
     JS.toLocaleString := fun _ => "NaN" |}.

End Sample.

(** * Properties *)

(** ** The machine *)

Section MachineFacts.

Import React.
Context {C : Component}.
Implicit Types (w : World C) (ev : Event (Payload C)).

(** Commands touch the state and the console only. *)
Lemma exec_all_frame cs : forall w,
  lifecycle (fold_left exec cs w) = lifecycle w /\
  effect (fold_left exec cs w) = effect w /\
  inflight (fold_left exec cs w) = inflight w /\
  next_timer (fold_left exec cs w) = next_timer w.
Proof.
  induction cs as [|c cs IH]; intros w; simpl; auto.
  destruct (IH (exec w c)) as (H1 & H2 & H3 & H4).
  rewrite H1, H2, H3, H4.
  destruct c as [label err|x]; simpl; auto.
  destruct (lifecycle w) eqn:E; simpl; auto.
Qed.

Lemma exec_all_mounted cs : forall w,
  lifecycle w = Mounted ->
  state (fold_left exec cs w) = apply_all cs (state w).
Proof.
  induction cs as [|c cs IH]; intros w Hm; simpl; auto.
  destruct c as [label err|x]; simpl.
  - rewrite IH by exact Hm. reflexivity.
  - rewrite Hm. rewrite IH by reflexivity. reflexivity.
Qed.

Lemma exec_all_not_mounted cs : forall w,
  lifecycle w <> Mounted ->
  state (fold_left exec cs w) = state w.
Proof.
  induction cs as [|c cs IH]; intros w Hm; simpl; auto.
  destruct c as [label err|x]; simpl.
  - rewrite IH by exact Hm. reflexivity.
  - destruct (lifecycle w) eqn:E; try congruence;
      rewrite IH by congruence; reflexivity.
Qed.

Lemma timers_frame w w' id :
  effect w' = effect w -> next_timer w' = next_timer w ->
  timers_ok w -> cleared id w -> timers_ok w' /\ cleared id w'.
Proof.
  unfold timers_ok, cleared. intros -> ->. auto.
Qed.

Lemma state_commit w : state (commit w) = state w.
Proof.
  unfold commit. destruct (lifecycle w); try reflexivity.
  destruct (effect w) as [e|]; try reflexivity.
  destruct (same_deps C (armed e) (deps C (state w))); reflexivity.
Qed.

Lemma lifecycle_commit w : lifecycle (commit w) = lifecycle w.
Proof.
  unfold commit. destruct (lifecycle w) eqn:E; try exact E.
  destruct (effect w) as [e|]; try exact E.
  destruct (same_deps C (armed e) (deps C (state w))); simpl; exact E.
Qed.

(** The answer to a request, whichever effect issued it, runs the fetch
    function on the state of a mounted component. *)
Lemma settle_mounted w i r o :
  lifecycle w = Mounted ->
  nth_error (inflight w) i = Some r ->
  state (step w (Settle i o)) = apply_all (fetch C (seen r) o) (state w).
Proof.
  intros Hm Hr. simpl. rewrite Hr, state_commit.
  rewrite exec_all_mounted by exact Hm. reflexivity.
Qed.

Lemma step_state w ev :
  state (step w ev) = state w \/
  exists c o, state (step w ev) = apply_all (fetch C c o) (state w).
Proof.
  destruct ev as [|id|i o|]; simpl.
  - destruct (lifecycle w); auto.
  - destruct (effect w) as [e|]; auto.
    destruct (Nat.eqb (timer e) id); auto.
  - destruct (nth_error (inflight w) i) as [r|] eqn:Hr; auto.
    rewrite state_commit.
    destruct (lifecycle w) eqn:Hm.
    + left. rewrite exec_all_not_mounted by (simpl; congruence). reflexivity.
    + right. exists (seen r), o.
      rewrite exec_all_mounted by exact Hm. reflexivity.
    + left. rewrite exec_all_not_mounted by (simpl; congruence). reflexivity.
  - destruct (lifecycle w); auto.
Qed.

(** A property of the state that every run of the fetch function keeps
    is kept by every event. *)
Lemma run_preserves (P : State C -> Prop) :
  (forall c o s, P s -> P (apply_all (fetch C c o) s)) ->
  forall evs w, P (state w) -> P (state (run w evs)).
Proof.
  intros HP. induction evs as [|ev evs IH]; intros w Hw; simpl; auto.
  apply IH. destruct (step_state w ev) as [E|(c & o & E)]; rewrite E; auto.
Qed.

(** An unmounted component stays unmounted and its state is final. *)
Lemma step_unmounted w ev :
  lifecycle w = Unmounted ->
  lifecycle (step w ev) = Unmounted /\ state (step w ev) = state w.
Proof.
  intros Hu. destruct ev as [|id|i o|]; simpl.
  - rewrite Hu. auto.
  - destruct (effect w) as [e|]; auto.
    destruct (Nat.eqb (timer e) id); auto.
  - destruct (nth_error (inflight w) i) as [r|]; auto.
    rewrite state_commit, lifecycle_commit.
    rewrite exec_all_not_mounted by (simpl; congruence).
    destruct (exec_all_frame (fetch C (seen r) o) (take_request i w))
      as (-> & _). auto.
  - rewrite Hu. auto.
Qed.

Lemma run_unmounted evs : forall w,
  lifecycle w = Unmounted ->
  lifecycle (run w evs) = Unmounted /\ state (run w evs) = state w.
Proof.
  induction evs as [|ev evs IH]; intros w Hu; simpl; auto.
  destruct (step_unmounted w ev Hu) as [Hl Hs].
  destruct (IH _ Hl) as [Hl' Hs']. split; congruence.
Qed.

(** After the unmount no interval is armed, and none is armed again. *)
Lemma step_unmounted_effect w ev :
  lifecycle w = Unmounted -> effect w = None -> effect (step w ev) = None.
Proof.
  intros Hu He. destruct ev as [|id|i o|]; simpl.
  - rewrite Hu. exact He.
  - rewrite He. exact He.
  - destruct (nth_error (inflight w) i) as [r|]; [|exact He].
    destruct (exec_all_frame (fetch C (seen r) o) (take_request i w))
      as (Hl & Hf & _).
    unfold commit. rewrite Hl. cbn [take_request lifecycle]. rewrite Hu.
    rewrite Hf. exact He.
  - rewrite Hu. exact He.
Qed.

Lemma run_unmounted_effect evs : forall w,
  lifecycle w = Unmounted -> effect w = None -> effect (run w evs) = None.
Proof.
  induction evs as [|ev evs IH]; intros w Hu He; simpl; auto.
  apply IH.
  - apply (step_unmounted w ev Hu).
  - apply (step_unmounted_effect w ev Hu He).
Qed.

(** The unmount of a mounted component runs the cleanup and nothing
    else: the interval is cleared, the state and the requests in flight
    stay. From then on a tick finds no callback and changes nothing at
    all, and the answer to a request uses the request up and leaves the
    state as it was. *)
Lemma unmount_is_final w evs :
  lifecycle w = Mounted ->
  let u := step w Unmount in
  (lifecycle u = Unmounted /\ effect u = None /\
   state u = state w /\ inflight u = inflight w) /\
  state (run u evs) = state w /\
  (forall id, step (run u evs) (Tick id) = run u evs) /\
  (forall i o,
     state (step (run u evs) (Settle i o)) = state w /\
     effect (step (run u evs) (Settle i o)) = None /\
     inflight (step (run u evs) (Settle i o)) =
       remove_nth i (inflight (run u evs))).
Proof.
  intros Hm u.
  assert (Hu : (lifecycle u = Unmounted /\ effect u = None /\
                state u = state w /\ inflight u = inflight w)).
  { unfold u. simpl. rewrite Hm. repeat split. }
  destruct Hu as (Hl & He & Hs & Hi).
  destruct (run_unmounted evs u Hl) as [Hl' Hs'].
  pose proof (run_unmounted_effect evs u Hl He) as He'.
  split; [repeat split; assumption|].
  split; [congruence|]. split.
  - intros id. simpl. rewrite He'. reflexivity.
  - intros i o.
    destruct (step_unmounted (run u evs) (Settle i o) Hl') as [_ Hs2].
    split; [congruence|].
    split; [apply step_unmounted_effect; assumption|].
    simpl. destruct (nth_error (inflight (run u evs)) i) as [r|] eqn:Hr.
    + destruct (exec_all_frame (fetch C (seen r) o)
                  (take_request i (run u evs))) as (Hl2 & Hf2 & Hi2 & _).
      unfold commit. rewrite Hl2. cbn [take_request lifecycle].
      rewrite Hl'. rewrite Hi2. reflexivity.
    + clear - Hr. revert i Hr.
      induction (inflight (run u evs)) as [|x l IH]; intros [|i] Hr;
        simpl in *; try reflexivity; try discriminate.
      rewrite <- IH by exact Hr. reflexivity.
Qed.

(** A tick touches the requests in flight only. *)
Lemma tick_frame w id :
  lifecycle (step w (Tick id)) = lifecycle w /\
  state (step w (Tick id)) = state w /\
  effect (step w (Tick id)) = effect w /\
  next_timer (step w (Tick id)) = next_timer w.
Proof.
  cbn [step]. destruct (effect w) as [e|] eqn:Ee;
    [destruct (Nat.eqb (timer e) id)|]; cbn; rewrite ?Ee; repeat split.
Qed.

(** *** Intervals *)

Lemma tick_cleared w id : cleared id w -> step w (Tick id) = w.
Proof.
  intros [_ Hc]. simpl. destruct (effect w) as [e|]; auto.
  destruct (Nat.eqb_spec (timer e) id) as [E|]; auto.
  exfalso. exact (Hc e eq_refl E).
Qed.

Lemma commit_timers w id :
  timers_ok w -> cleared id w ->
  timers_ok (commit w) /\ cleared id (commit w).
Proof.
  intros Hok Hcl. pose proof Hcl as [Hlt Hc]. unfold commit.
  destruct (lifecycle w); try (split; assumption).
  destruct (effect w) as [e|] eqn:He; try (split; assumption).
  destruct (same_deps C (armed e) (deps C (state w))).
  - split; assumption.
  - split.
    + intros e' He'. simpl in He'. injection He' as <-. simpl. lia.
    + split; simpl; [lia|].
      intros e' He'. injection He' as <-. simpl. lia.
Qed.

Lemma step_timers w ev id :
  timers_ok w -> cleared id w ->
  timers_ok (step w ev) /\ cleared id (step w ev).
Proof.
  intros Hok Hc. pose proof Hc as [Hlt Hne].
  destruct ev as [|id'|i o|]; simpl.
  - destruct (lifecycle w); try (split; assumption).
    split.
    + intros e He. simpl in He. injection He as <-. simpl. lia.
    + split; simpl; [lia|].
      intros e He. injection He as <-. simpl. lia.
  - destruct (effect w) as [e|] eqn:He; try (split; assumption).
    destruct (Nat.eqb (timer e) id'); split; assumption.
  - destruct (nth_error (inflight w) i) as [r|]; try (split; assumption).
    set (w' := fold_left exec _ _).
    destruct (exec_all_frame (fetch C (seen r) o) (take_request i w))
      as (_ & He' & _ & Hn').
    destruct (timers_frame w w' id He' Hn' Hok Hc).
    apply commit_timers; assumption.
  - destruct (lifecycle w); try (split; assumption).
    split.
    + intros e He. discriminate He.
    + split; simpl; [lia|]. intros e He. discriminate He.
Qed.

Lemma run_timers evs : forall w id,
  timers_ok w -> cleared id w ->
  timers_ok (run w evs) /\ cleared id (run w evs).
Proof.
  induction evs as [|ev evs IH]; intros w id Hok Hc; simpl; auto.
  destruct (step_timers w ev id Hok Hc) as [Hok' Hc']. auto.
Qed.

Lemma step_timers_ok w ev : timers_ok w -> timers_ok (step w ev).
Proof.
  intros Hok. destruct ev as [|id'|i o|]; simpl.
  - destruct (lifecycle w); auto.
    intros e He. simpl in He. injection He as <-. simpl. lia.
  - destruct (effect w) as [e|] eqn:He; auto.
    destruct (Nat.eqb (timer e) id'); auto.
  - destruct (nth_error (inflight w) i) as [r|]; auto.
    set (w' := fold_left exec _ _).
    assert (Hw' : timers_ok w').
    { destruct (exec_all_frame (fetch C (seen r) o) (take_request i w))
        as (_ & He' & _ & Hn').
      unfold timers_ok. fold w' in He', Hn'. rewrite He', Hn'. exact Hok. }
    unfold commit. destruct (lifecycle w'); auto.
    destruct (effect w') as [e|]; auto.
    destruct (same_deps C (armed e) (deps C (state w'))); auto.
    intros e' He'. simpl in He'. injection He' as <-. simpl. lia.
  - destruct (lifecycle w); auto. intros e He. discriminate He.
Qed.

Lemma timers_ok_reachable evs : timers_ok (run (boot C) evs).
Proof.
  assert (H : forall w, timers_ok w -> timers_ok (run w evs)).
  { induction evs as [|ev evs IH]; intros w Hw; simpl; auto.
    apply IH, step_timers_ok, Hw. }
  apply H. intros e He. discriminate He.
Qed.

(** Once cleared, an interval never fires again: whatever happens in
    between, its tick finds no callback to run. *)
Lemma cleared_never_fires w id evs :
  timers_ok w -> cleared id w ->
  step (run w evs) (Tick id) = run w evs.
Proof.
  intros Hok Hc. apply tick_cleared.
  apply (run_timers evs w id Hok Hc).
Qed.

End MachineFacts.

(** ** Numbers *)

Lemma SameValue_eq (x y : JS.number) : JS.SameValue x y = true -> x = y.
Proof. apply FloatAxioms.Leibniz.eqb_spec. Qed.

Lemma or_null_truthy (v : option JS.number) (p : JS.number) :
  JS.or_null v = Some p -> v = Some p /\ JS.ToBoolean p = true.
Proof.
  destruct v as [x|]; simpl; [|discriminate].
  destruct (JS.ToBoolean x) eqn:E; [|discriminate].
  intros [= <-]. auto.
Qed.


Lemma parse_digits_digits (n : N) : JS.parse_digits (JS.digits n) = Some n.
Proof.
  unfold JS.parse_digits, JS.digits. rewrite NilZero.usu.
  - simpl. rewrite DecimalN.Unsigned.of_to. reflexivity.
  - destruct n as [|p]; simpl; [discriminate|].
    apply DecimalPos.Unsigned.to_uint_nonnil.
Qed.

(** *** [toFixed] prints exactly the decimals asked for *)

Lemma string_of_list_ascii_app (a b : list ascii) :
  string_of_list_ascii (a ++ b) =
  string_of_list_ascii a ++ string_of_list_ascii b.
Proof. induction a as [|c a IH]; simpl; [|rewrite IH]; reflexivity. Qed.

Lemma digits_of_uint (d : Decimal.uint) :
  forallb JS.is_digit (list_ascii_of_string (NilEmpty.string_of_uint d)) = true.
Proof. induction d; simpl; auto. Qed.

Lemma digits_are_digits (n : N) :
  forallb JS.is_digit (list_ascii_of_string (JS.digits n)) = true /\
  list_ascii_of_string (JS.digits n) <> [].
Proof.
  unfold JS.digits.
  assert (H : N.to_uint n <> Decimal.Nil).
  { destruct n as [|p]; simpl; [discriminate|].
    apply DecimalPos.Unsigned.to_uint_nonnil. }
  destruct (N.to_uint n) as [|d|d|d|d|d|d|d|d|d|d] eqn:E; try congruence;
    (split; [rewrite <- E | simpl; discriminate]);
    rewrite E; apply (digits_of_uint (_ d)).
Qed.

Lemma zeros_are_digits (k : nat) :
  forallb JS.is_digit (JS.zeros k) = true /\ List.length (JS.zeros k) = k.
Proof. induction k as [|k [IH1 IH2]]; simpl; auto. Qed.

Lemma forallb_firstn {A} (p : A -> bool) (l : list A) (k : nat) :
  forallb p l = true -> forallb p (firstn k l) = true.
Proof.
  revert k. induction l as [|x l IH]; intros [|k]; simpl; auto.
  intros H. apply andb_true_iff in H as [-> H]. simpl. auto.
Qed.

Lemma forallb_skipn {A} (p : A -> bool) (l : list A) (k : nat) :
  forallb p l = true -> forallb p (skipn k l) = true.
Proof.
  revert k. induction l as [|x l IH]; intros [|k]; simpl; auto.
  intros H. apply andb_true_iff in H as [_ H]. auto.
Qed.

Lemma point_fixed_shape (n : Z) (f : nat) :
  exists int frac : list ascii,
    JS.point_fixed n (S f) =
      string_of_list_ascii int ++ "." ++ string_of_list_ascii frac /\
    int <> [] /\ List.length frac = S f /\
    forallb JS.is_digit int = true /\ forallb JS.is_digit frac = true.
Proof.
  unfold JS.point_fixed.
  destruct (digits_are_digits (Z.to_N n)) as [Hd Hne].
  set (m0 := list_ascii_of_string (JS.digits (Z.to_N n))) in *.
  set (m := if (List.length m0 <=? S f)%nat
            then (JS.zeros (S f + 1 - List.length m0) ++ m0)%list else m0).
  assert (Hm : forallb JS.is_digit m = true /\ (S f < List.length m)%nat).
  { unfold m. destruct (Nat.leb_spec (List.length m0) (S f)) as [H|H].
    - destruct (zeros_are_digits (S f + 1 - List.length m0)) as [Z1 Z2].
      rewrite forallb_app, Z1, Hd, length_app, Z2. split; [reflexivity|lia].
    - auto. }
  destruct Hm as [Hm1 Hm2].
  exists (firstn (List.length m - S f) m), (skipn (List.length m - S f) m).
  repeat split.
  - rewrite string_of_list_ascii_app. reflexivity.
  - intros H. apply (f_equal (@List.length ascii)) in H.
    rewrite length_firstn in H. simpl in H. lia.
  - rewrite length_skipn. lia.
  - apply forallb_firstn, Hm1.
  - apply forallb_skipn, Hm1.
Qed.

(** A finite number below 10^21 is printed with a sign, an integer part, a
    point and exactly the decimals asked for. *)
Lemma toFixed_fixed_point (host : JS.Host) (x : JS.number) (f : nat) :
  JS.below_1e21 x = true -> JS.fixed_point (S f) (JS.toFixed host x (S f)).
Proof.
  unfold JS.below_1e21, JS.toFixed, JS.fixed_point.
  destruct (Prim2SF x) as [s|s| |s m e]; try discriminate.
  - intros _. destruct (point_fixed_shape 0 f) as (int & frac & E & H).
    exists "", int, frac. rewrite E. split; [reflexivity|]. tauto.
  - intros H. apply negb_true_iff in H. rewrite H.
    destruct (point_fixed_shape (JS.nearest_scaled m e (S f)) f)
      as (int & frac & E & H').
    exists (if s then "-" else ""), int, frac. rewrite E.
    split; [reflexivity|]. split; [destruct s; auto | tauto].
Qed.

(** *** [toFixed] prints the nearest numeral *)

Lemma numeral_fold_app (a b : list ascii) (acc : Z) :
  fold_left (fun acc c => 10 * acc + (Z.of_nat (nat_of_ascii c) - 48))%Z
    (a ++ b) acc =
  fold_left (fun acc c => 10 * acc + (Z.of_nat (nat_of_ascii c) - 48))%Z b
    (fold_left (fun acc c => 10 * acc + (Z.of_nat (nat_of_ascii c) - 48))%Z
       a acc).
Proof. apply fold_left_app. Qed.

Lemma numeral_of_uint_acc (d : Decimal.uint) : forall acc : positive,
  fold_left (fun acc c => 10 * acc + (Z.of_nat (nat_of_ascii c) - 48))%Z
    (list_ascii_of_string (NilEmpty.string_of_uint d)) (Z.pos acc) =
  Z.pos (Pos.of_uint_acc d acc).
Proof.
  induction d; intros acc; cbn [NilEmpty.string_of_uint list_ascii_of_string
                                 fold_left Pos.of_uint_acc];
    try reflexivity; rewrite <- IHd; f_equal; vm_compute Z.of_nat; lia.
Qed.

Lemma numeral_of_uint (d : Decimal.uint) :
  JS.numeral_value (list_ascii_of_string (NilEmpty.string_of_uint d)) =
  Z.of_N (Pos.of_uint d).
Proof.
  unfold JS.numeral_value.
  induction d; cbn [NilEmpty.string_of_uint list_ascii_of_string fold_left
                    Pos.of_uint];
    try reflexivity; [exact IHd|..];
    cbn [Z.of_N]; rewrite <- numeral_of_uint_acc; reflexivity.
Qed.

Lemma numeral_of_digits (n : N) :
  JS.numeral_value (list_ascii_of_string (JS.digits n)) = Z.of_N n.
Proof.
  unfold JS.digits.
  assert (H : N.to_uint n <> Decimal.Nil).
  { destruct n as [|p]; simpl; [discriminate|].
    apply DecimalPos.Unsigned.to_uint_nonnil. }
  assert (E : NilZero.string_of_uint (N.to_uint n) =
              NilEmpty.string_of_uint (N.to_uint n)).
  { destruct (N.to_uint n); [congruence|reflexivity..]. }
  rewrite E, numeral_of_uint.
  change (Pos.of_uint (N.to_uint n)) with (N.of_uint (N.to_uint n)).
  rewrite DecimalN.Unsigned.of_to. reflexivity.
Qed.

Lemma numeral_of_zeros (k : nat) (l : list ascii) :
  JS.numeral_value (JS.zeros k ++ l) = JS.numeral_value l.
Proof.
  unfold JS.numeral_value. rewrite numeral_fold_app. f_equal.
  induction k as [|k IH]; cbn [JS.zeros fold_left]; auto.
Qed.

Lemma nzhead_head (d : Decimal.uint) :
  match Decimal.nzhead d with Decimal.D0 _ => False | _ => True end.
Proof. induction d; simpl; auto. Qed.

Lemma digits_no_leading_zero (n : N) :
  JS.no_leading_zero (list_ascii_of_string (JS.digits n)).
Proof.
  unfold JS.digits.
  pose proof (DecimalN.Unsigned.to_of (N.to_uint n)) as H.
  rewrite DecimalN.Unsigned.of_to in H. rewrite H.
  unfold Decimal.unorm. pose proof (nzhead_head (N.to_uint n)) as Hz.
  destruct (Decimal.nzhead (N.to_uint n)) as [|d|d|d|d|d|d|d|d|d|d];
    try exact I; try contradiction;
    cbn [NilZero.string_of_uint NilEmpty.string_of_uint list_ascii_of_string
         JS.no_leading_zero];
    destruct (list_ascii_of_string (NilEmpty.string_of_uint d));
    try exact I; discriminate.
Qed.

Lemma no_leading_zero_firstn (j : nat) (l : list ascii) :
  JS.no_leading_zero l -> JS.no_leading_zero (firstn j l).
Proof.
  destruct l as [|c [|c' l]], j as [|[|j]]; simpl; auto.
Qed.

Lemma point_fixed_reads_back (n : Z) (f : nat) :
  (0 <= n)%Z ->
  exists int frac : list ascii,
    JS.point_fixed n (S f) =
      string_of_list_ascii int ++ "." ++ string_of_list_ascii frac /\
    int <> [] /\ JS.no_leading_zero int /\ List.length frac = S f /\
    forallb JS.is_digit int = true /\ forallb JS.is_digit frac = true /\
    JS.numeral_value (int ++ frac) = n.
Proof.
  intros Hn. unfold JS.point_fixed.
  destruct (digits_are_digits (Z.to_N n)) as [Hd Hne].
  pose proof (numeral_of_digits (Z.to_N n)) as Hv.
  pose proof (digits_no_leading_zero (Z.to_N n)) as Hz.
  rewrite Z2N.id in Hv by exact Hn.
  set (m0 := list_ascii_of_string (JS.digits (Z.to_N n))) in *.
  set (m := if (List.length m0 <=? S f)%nat
            then (JS.zeros (S f + 1 - List.length m0) ++ m0)%list else m0).
  assert (Hm : forallb JS.is_digit m = true /\ (S f < List.length m)%nat /\
               JS.numeral_value m = n /\
               JS.no_leading_zero (firstn (List.length m - S f) m)).
  { unfold m. destruct (Nat.leb_spec (List.length m0) (S f)) as [H|H].
    - destruct (zeros_are_digits (S f + 1 - List.length m0)) as [Z1 Z2].
      rewrite forallb_app, Z1, Hd, length_app, Z2, numeral_of_zeros.
      split; [reflexivity|]. split; [lia|]. split; [exact Hv|].
      replace (S f + 1 - List.length m0 + List.length m0 - S f)%nat
        with 1%nat by lia.
      destruct (JS.zeros (S f + 1 - List.length m0) ++ m0)%list;
        exact I.
    - split; [exact Hd|]. split; [exact H|]. split; [exact Hv|].
      apply no_leading_zero_firstn, Hz. }
  destruct Hm as (Hm1 & Hm2 & Hm3 & Hm4).
  exists (firstn (List.length m - S f) m), (skipn (List.length m - S f) m).
  split; [rewrite string_of_list_ascii_app; reflexivity|].
  split.
  { intros H. apply (f_equal (@List.length ascii)) in H.
    rewrite length_firstn in H. simpl in H. lia. }
  split; [exact Hm4|].
  split; [rewrite length_skipn; lia|].
  split; [apply forallb_firstn, Hm1|].
  split; [apply forallb_skipn, Hm1|].
  rewrite firstn_skipn. exact Hm3.
Qed.

Lemma nearest_scaled_is_nearest (m : positive) (e : Z) (f : nat) :
  JS.nearest_to m e f (JS.nearest_scaled m e f) /\
  (0 <= JS.nearest_scaled m e f)%Z.
Proof.
  unfold JS.nearest_to, JS.nearest_scaled.
  assert (P10 : (0 < 10 ^ Z.of_nat f)%Z) by (apply Z.pow_pos_nonneg; lia).
  destruct (Z.leb_spec 0 e) as [He|He].
  - rewrite (Z.max_l 0 (- e)), (Z.max_r 0 e) by lia.
    assert (P2 : (0 < 2 ^ e)%Z) by (apply Z.pow_pos_nonneg; lia).
    change (2 ^ 0)%Z with 1%Z. split; [nia|nia].
  - rewrite (Z.max_r 0 (- e)), (Z.max_l 0 e) by lia.
    change (2 ^ 0)%Z with 1%Z.
    assert (P2 : (0 < 2 ^ (- e))%Z) by (apply Z.pow_pos_nonneg; lia).
    set (d := (2 ^ (- e))%Z) in *. set (y := (Z.pos m * 10 ^ Z.of_nat f)%Z).
    assert (Py : (0 < y)%Z) by (unfold y; nia).
    pose proof (Z.mul_div_le (2 * y + d) (2 * d) ltac:(lia)) as L1.
    pose proof (Z.mul_succ_div_gt (2 * y + d) (2 * d) ltac:(lia)) as L2.
    set (q := ((2 * y + d) / (2 * d))%Z) in *.
    replace (Z.pos m * 1 * 10 ^ Z.of_nat f)%Z with y by (unfold y; ring).
    split; [split; nia|].
    unfold q. apply Z.div_pos; lia.
Qed.

(** A finite number below 10^21 is printed as the numeral with the
    decimals asked for that is nearest to it. *)
Lemma toFixed_prints_nearest (host : JS.Host) (x : JS.number) (f : nat) :
  JS.below_1e21 x = true ->
  JS.prints_nearest (S f) x (JS.toFixed host x (S f)).
Proof.
  unfold JS.below_1e21, JS.toFixed, JS.prints_nearest.
  destruct (Prim2SF x) as [s|s| |s m e]; try discriminate.
  - intros _.
    destruct (point_fixed_reads_back 0 f ltac:(lia)) as (int & frac & E & H).
    exists 0%Z, int, frac. rewrite E. tauto.
  - intros H. apply negb_true_iff in H. rewrite H.
    destruct (nearest_scaled_is_nearest m e (S f)) as [Hn Hp].
    destruct (point_fixed_reads_back _ f Hp) as (int & frac & E & H').
    exists (JS.nearest_scaled m e (S f)), int, frac. rewrite E. tauto.
Qed.

(** The sign of a finite number, read off its decomposition. *)
Lemma negative_finite (x : JS.number) (sg : bool) (m : positive) (e : Z) :
  Prim2SF x = S754_finite sg m e -> (x <? 0)%float = sg.
Proof.
  intros H. rewrite FloatAxioms.ltb_spec, H.
  change (Prim2SF 0) with (S754_zero false).
  destruct sg; reflexivity.
Qed.

(** What [toFixed] prints outside that range. *)
Lemma toFixed_out_of_range (host : JS.Host) (x : JS.number) (f : nat) :
  JS.below_1e21 x = false ->
  JS.toFixed host x f =
    match Prim2SF x with
    | S754_nan => "NaN"
    | S754_infinity sg => if sg then "-Infinity" else "Infinity"
    | _ => (if (x <? 0)%float then "-" else "") ++
           JS.NumberToString host (PrimFloat.abs x)
    end.
Proof.
  unfold JS.below_1e21, JS.toFixed.
  destruct (Prim2SF x) as [s|s| |s m e] eqn:E; intros H.
  - discriminate H.
  - destruct s; reflexivity.
  - reflexivity.
  - apply negb_false_iff in H. rewrite H.
    rewrite (negative_finite x s m e E). reflexivity.
Qed.

Lemma not_fixed_point_Infinity (f : nat) : ~ JS.fixed_point f "Infinity".
Proof.
  intros (sign & int & frac & E & Hs & Hi & _ & Hd & _).
  destruct int as [|c int]; [congruence|].
  cbn [forallb] in Hd. apply andb_true_iff in Hd as [Hc _].
  destruct Hs as [-> | ->]; cbn in E; injection E as E _; subst c;
    discriminate Hc.
Qed.

(** ** The price ticker *)

Section PriceTickerFacts.

Import React PriceTicker.

Implicit Types (w : World component) (s : State).

Lemma same_deps_eq (a b : option JS.number) : same_deps a b = true -> a = b.
Proof.
  destruct a as [x|], b as [y|]; simpl; try discriminate; auto.
  intros H. f_equal. apply SameValue_eq, H.
Qed.

(** The two branches of [fetchPrice] on the state. *)
Lemma fetchPrice_resolved c d s :
  apply_all (C := component) (fetchPrice c (Resolved d)) s =
  {| priceData := Some d;
     previousPrice := JS.or_null (option_map price c);
     loading := false; error := None |}.
Proof. reflexivity. Qed.

Lemma fetchPrice_rejected c err s :
  apply_all (C := component) (fetchPrice c (Rejected err)) s =
  {| priceData := priceData s;
     previousPrice := previousPrice s;
     loading := false; error := Some "Failed to fetch price data" |}.
Proof. reflexivity. Qed.

Lemma fetchPrice_previous_ok c o s :
  previous_ok s -> previous_ok (apply_all (C := component) (fetchPrice c o) s).
Proof.
  intros Hs. destruct o as [d|err].
  - rewrite fetchPrice_resolved. unfold previous_ok. simpl.
    destruct (JS.or_null (option_map price c)) as [p|] eqn:E; auto.
    apply or_null_truthy in E. split; [tauto | discriminate].
  - rewrite fetchPrice_rejected. exact Hs.
Qed.

Lemma previous_ok_reachable evs : previous_ok (state (run (boot component) evs)).
Proof.
  apply (run_preserves (C := component) previous_ok).
  - intros c o s. apply fetchPrice_previous_ok.
  - exact I.
Qed.

(** *** Runs without overlap *)

Lemma in_step_mount : in_step (step (boot component) Mount).
Proof.
  split; [reflexivity|]. eexists. split; [reflexivity|].
  repeat split. right. reflexivity.
Qed.

(** In such a run the fetch function that answers sees a payload with
    the price on display, and the run stays without overlap. *)
Lemma poll_in_step w o :
  in_step w ->
  in_step (poll w o) /\
  exists c, option_map price c = deps (state w) /\
    state (poll w o) = apply_all (C := component) (fetchPrice c o) (state w).
Proof.
  intros (Hm & e & He & Hc & Ha & Hin).
  set (r := {| issuer := timer e; seen := closure e |}) in *.
  assert (H1 : exists w1,
    poll w o = step w1 (Settle 0 o) /\ lifecycle w1 = Mounted /\
    effect w1 = Some e /\ inflight w1 = [r] /\ state w1 = state w).
  { destruct Hin as [Hin|Hin].
    - exists (issue (timer e) (closure e) w). unfold poll.
      rewrite Hin, He. cbn [step]. rewrite He, Nat.eqb_refl.
      repeat split; auto. cbn [issue inflight]. rewrite Hin. reflexivity.
    - exists w. unfold poll. rewrite Hin. fold r. auto. }
  destruct H1 as (w1 & -> & Hm1 & He1 & Hin1 & Hs1).
  cbn [step]. rewrite Hin1. cbn [nth_error].
  match goal with |- context [commit ?x] => set (w2 := x) end.
  assert (H2 : lifecycle w2 = Mounted /\ effect w2 = Some e /\
               inflight w2 = [] /\
               state w2 = apply_all (C := component)
                            (fetchPrice (closure e) o) (state w)).
  { destruct (exec_all_frame (fetch component (seen r) o) (take_request 0 w1))
      as (A1 & A2 & A3 & _).
    repeat split.
    - etransitivity; [exact A1 | exact Hm1].
    - etransitivity; [exact A2 | exact He1].
    - etransitivity; [exact A3 |]. cbn [take_request inflight].
      rewrite Hin1. reflexivity.
    - etransitivity;
        [exact (exec_all_mounted (fetch component (seen r) o)
                  (take_request 0 w1) Hm1) |].
      cbn [take_request state]. rewrite Hs1. reflexivity. }
  destruct H2 as (Hm2 & He2 & Hin2 & Hs2). clearbody w2.
  split.
  - unfold commit. rewrite Hm2, He2.
    destruct (React.same_deps component (armed e)
                (React.deps component (state w2))) eqn:E.
    + split; [exact Hm2|]. exists e. repeat split; auto.
      apply same_deps_eq, E.
    + split; [exact Hm2|]. eexists. split; [reflexivity|].
      repeat split. right. cbn. rewrite Hin2. reflexivity.
  - exists (closure e). split; [congruence|].
    rewrite state_commit. exact Hs2.
Qed.

Lemma polls_in_step os : forall w, in_step w -> in_step (polls w os).
Proof.
  induction os as [|o os IH]; intros w Hw; simpl; auto.
  apply IH, poll_in_step, Hw.
Qed.

Lemma poll_resolved w d :
  in_step w ->
  state (poll w (Resolved d)) =
  {| priceData := Some d;
     previousPrice := JS.or_null (option_map price (priceData (state w)));
     loading := false; error := None |}.
Proof.
  intros Hw. destruct (poll_in_step w (Resolved d) Hw) as (_ & c & Hc & ->).
  rewrite fetchPrice_resolved. unfold deps in Hc. rewrite Hc. reflexivity.
Qed.

Lemma polls_snoc w os o : polls w (os ++ [o]) = poll (polls w os) o.
Proof. unfold polls. rewrite fold_left_app. reflexivity. Qed.

End PriceTickerFacts.

(** ** Claims about the price ticker *)

Section PriceTickerClaims.

Import React PriceTicker.

(** C1, as the code has it. Every successful fetch leaves the state with:
    current = the new payload, error = none, loading = false, and
    previous = [price || null] of the price its fetch function closed
    over: that price when it is truthy, absent when it is [0] or [NaN] or
    when no payload had been seen. In a run whose fetches do not overlap
    the price closed over is the price of the payload held before the
    fetch; hence after a sequence of such successful fetches, previous
    after fetch N is [price || null] of the price of the current payload
    after fetch N-1. *)
Theorem fetch_success_update :
  (forall (w : World component) i r (d : PriceData),
     lifecycle w = Mounted -> nth_error (inflight w) i = Some r ->
     state (step w (Settle i (Resolved d))) =
     {| priceData := Some d;
        previousPrice := JS.or_null (option_map price (seen r));
        loading := false; error := None |}) /\
  (forall (os : list (Outcome PriceData)) (d : PriceData),
     let w := polls (step (boot component) Mount) os in
     state (poll w (Resolved d)) =
     {| priceData := Some d;
        previousPrice := JS.or_null (option_map price (priceData (state w)));
        loading := false; error := None |}) /\
  (forall (ds : list PriceData) (d' d : PriceData),
     let w1 := polls (step (boot component) Mount)
                 (map Resolved (ds ++ [d'])) in
     let w2 := poll w1 (Resolved d) in
     priceData (state w1) = Some d' /\
     priceData (state w2) = Some d /\
     previousPrice (state w2) = JS.or_null (Some (price d'))).
Proof.
  assert (H : forall os d,
    state (poll (polls (step (boot component) Mount) os) (Resolved d)) =
    {| priceData := Some d;
       previousPrice :=
         JS.or_null (option_map price
           (priceData (state (polls (step (boot component) Mount) os))));
       loading := false; error := None |}).
  { intros os d. apply poll_resolved, polls_in_step, in_step_mount. }
  split; [|split; [exact H|]].
  - intros w i r d Hm Hr.
    exact (settle_mounted (C := component) w i r (Resolved d) Hm Hr).
  - intros ds d' d w1 w2.
    assert (H1 : priceData (state w1) = Some d').
    { unfold w1. rewrite map_app. cbn [map]. rewrite polls_snoc, H.
      reflexivity. }
    unfold w2, w1 in *. rewrite H. cbn [priceData previousPrice].
    rewrite H1. auto.
Qed.

Lemma fetch_success_update_witness :
  let w := polls (step (boot component) Mount)
             [Resolved (Sample.quote 50000%float)] in
  (lifecycle w = Mounted /\
   option_map issuer (nth_error (inflight w) 0) = Some 1) /\
  state (step w (Settle 0 (Resolved (Sample.quote 51000%float)))) =
  {| priceData := Some (Sample.quote 51000%float);
     previousPrice := Some 50000%float;
     loading := false; error := None |}.
Proof.
  intros w. split; [split; reflexivity|].
  exact (proj1 fetch_success_update w 0 _ (Sample.quote 51000%float)
           eq_refl eq_refl).
Defined.

(** C1 fails as stated. After a fetch that returned the price 0, the next
    successful fetch leaves previous absent, not equal to the current
    value held before it. And when two fetches overlap, the second answer
    sets previous from the payload its fetch function closed over (none),
    not from the current value the first answer installed. *)
Lemma previous_is_not_prior_current :
  (let w1 := polls (step (boot component) Mount)
               [Resolved (Sample.quote 0%float)] in
   let w2 := poll w1 (Resolved (Sample.quote 51000%float)) in
   option_map price (priceData (state w1)) = Some 0%float /\
   previousPrice (state w2) = None /\
   previousPrice (state w2) <> option_map price (priceData (state w1))) /\
  (let w1 := run (boot component)
               [Mount; Tick 0;
                Settle 0 (Resolved (Sample.quote 50000%float))] in
   let w2 := step w1 (Settle 0 (Resolved (Sample.quote 51000%float))) in
   option_map price (priceData (state w1)) = Some 50000%float /\
   priceData (state w2) = Some (Sample.quote 51000%float) /\
   previousPrice (state w2) = None /\
   previousPrice (state w2) <> option_map price (priceData (state w1))).
Proof.
  cbv zeta. repeat split; try (vm_compute; reflexivity);
    intros H; vm_compute in H; discriminate H.
Qed.




(** C3, as the code has it. With previous 50000 and current 51000 the
    percentage is "2.00" and the sign flag is positive. In every state the
    component can reach, when a previous price [p] is present the
    percentage is [((current - p) / p * 100).toFixed(2)] and the flag is
    [current - p >= 0]. When that number is finite and below 10^21 in
    magnitude the string is the numeral with exactly two decimals nearest
    to it, the one further from zero when two are as near. Otherwise it
    is "NaN", "Infinity" or "-Infinity", or, from 10^21 on, the sign and
    what [Number::toString] prints for the magnitude. *)
Theorem delta_percentage (host : JS.Host) :
  (forall d l e, price d = 51000%float ->
     let s := {| priceData := Some d; previousPrice := Some 50000%float;
                 loading := l; error := e |} in
     priceChangePercent host s = "2.00" /\ isPositive s = true) /\
  (forall evs p,
     let s := state (run (boot component) evs) in
     previousPrice s = Some p ->
     exists d, priceData s = Some d /\
       priceChange s = (price d - p)%float /\
       priceChangePercent host s =
         JS.toFixed host ((price d - p) / p * 100)%float 2 /\
       isPositive s = JS.ge (price d - p)%float 0%float /\
       (JS.below_1e21 ((price d - p) / p * 100)%float = true ->
        JS.prints_nearest 2 ((price d - p) / p * 100)%float
          (priceChangePercent host s) /\
        JS.fixed_point 2 (priceChangePercent host s)) /\
       (JS.below_1e21 ((price d - p) / p * 100)%float = false ->
        priceChangePercent host s =
          match Prim2SF ((price d - p) / p * 100)%float with
          | S754_nan => "NaN"
          | S754_infinity sg => if sg then "-Infinity" else "Infinity"
          | _ =>
              (if ((price d - p) / p * 100 <? 0)%float then "-" else "") ++
              JS.NumberToString host
                (PrimFloat.abs ((price d - p) / p * 100)%float)
          end)).
Proof.
  split.
  - intros d l e Hd s. unfold s, priceChangePercent, isPositive, priceChange.
    cbn [priceData previousPrice]. rewrite Hd. vm_compute. auto.
  - intros evs p s Hp.
    pose proof (previous_ok_reachable evs) as Hok. fold s in Hok.
    unfold previous_ok in Hok. rewrite Hp in Hok. destruct Hok as [Ht Hd].
    destruct (priceData s) as [d|] eqn:Ed; [|congruence].
    exists d. split; [reflexivity|].
    unfold priceChangePercent, isPositive, priceChange.
    rewrite Ed, Hp, Ht. repeat split.
    + apply toFixed_prints_nearest. assumption.
    + apply toFixed_fixed_point. assumption.
    + apply toFixed_out_of_range.
Qed.

Lemma delta_percentage_witness :
  let s := state (run (boot component)
                    [Mount; Settle 0 (Resolved (Sample.quote 50000%float));
                     Settle 0 (Resolved (Sample.quote 51000%float))]) in
  (price (Sample.quote 51000%float) = 51000%float /\
   previousPrice s = Some 50000%float /\
   JS.below_1e21 ((51000 - 50000) / 50000 * 100)%float = true) /\
  priceChangePercent Sample.host s = "2.00" /\
  isPositive s = true /\
  JS.prints_nearest 2 ((51000 - 50000) / 50000 * 100)%float "2.00".
Proof.
  intros s. split; [repeat split; reflexivity|].
  destruct (proj1 (delta_percentage Sample.host) (Sample.quote 51000%float)
              false None eq_refl) as [H1 H2].
  destruct (proj2 (delta_percentage Sample.host)
              [Mount; Settle 0 (Resolved (Sample.quote 50000%float));
               Settle 0 (Resolved (Sample.quote 51000%float))]
              50000%float eq_refl) as (d & Hd & _ & _ & _ & H3 & _).
  injection Hd as <-.
  split; [exact H1|]. split; [exact H2|].
  exact (proj1 (H3 eq_refl)).
Defined.

(** C3 fails as stated. A price of 2^-1000 followed by a price of 2^1000
    is a run of the component; the quotient overflows, and the percentage
    shown is "Infinity", which has no decimals at all. *)
Lemma percentage_without_decimals :
  let s := state (run (boot component)
                    [Mount; Settle 0 (Resolved (Sample.quote 0x1p-1000%float));
                     Settle 0 (Resolved (Sample.quote 0x1p+1000%float))]) in
  previousPrice s = Some 0x1p-1000%float /\
  option_map price (priceData s) = Some 0x1p+1000%float /\
  priceChangePercent Sample.host s = "Infinity" /\
  isPositive s = true /\
  ~ JS.fixed_point 2 (priceChangePercent Sample.host s).
Proof.
  cbv zeta. repeat split. apply not_fixed_point_Infinity.
Qed.

(** C4. Whatever the current value, when previous is absent the change
    is 0, the percentage is "0.00", the sign flag is positive, and the
    render shows no indicator. *)
Theorem delta_without_previous (host : JS.Host)
    (current : option PriceData) (l : bool) (e : option string) :
  let s := {| priceData := current; previousPrice := None;
              loading := l; error := e |} in
  priceChange s = 0%float /\
  priceChangePercent host s = "0.00" /\
  isPositive s = true /\
  indicator host s = None.
Proof.
  destruct current as [d|]; repeat split.
Qed.

End PriceTickerClaims.

(** ** Claims about the leaderboard *)

Section LeaderboardClaims.

Import React Leaderboard.

Lemma fetchLeaderboard_resolved c data s :
  apply_all (C := component) (fetchLeaderboard c (Resolved data)) s =
  {| traders := top_traders data; loading := false; error := None |}.
Proof. reflexivity. Qed.

Lemma rows_render host s :
  rows (render host s) = map_from (render_row host) 0 (traders s).
Proof. unfold render. cbn [rows]. destruct (traders s); reflexivity. Qed.

Lemma map_from_nth {A B : Type} (f : A -> N -> B) (l : list A) :
  forall (k : N) (i : nat),
    nth_error (map_from f k l) i =
    option_map (fun x => f x (k + N.of_nat i)%N) (nth_error l i).
Proof.
  induction l as [|x l IH]; intros k i.
  - destruct i; reflexivity.
  - destruct i as [|i]; cbn [map_from nth_error option_map].
    + rewrite N.add_0_r. reflexivity.
    + rewrite IH. destruct (nth_error l i); cbn [option_map]; auto.
      do 2 f_equal. lia.
Qed.

Lemma map_from_keys host (l : list Trader) :
  forall k, map key (map_from (render_row host) k l) = map trader_id l.
Proof.
  induction l as [|t l IH]; intros k; cbn [map_from map]; auto.
  rewrite IH. reflexivity.
Qed.

Lemma map_from_names host (l : list Trader) :
  forall k, map row_name (map_from (render_row host) k l) = map name l.
Proof.
  induction l as [|t l IH]; intros k; cbn [map_from map]; auto.
  rewrite IH. reflexivity.
Qed.

Lemma armed_once_step (w : World component) ev :
  armed_once w -> armed_once (step w ev).
Proof.
  unfold armed_once. destruct ev as [|id|i o|].
  - cbn [step]. destruct (lifecycle w) eqn:El; rewrite ?El; auto.
    intros Hw. cbn. eexists. split; [reflexivity|]. exact Hw.
  - destruct (tick_frame w id) as (-> & _ & -> & ->). auto.
  - cbn [step]. destruct (nth_error (inflight w) i) as [r|]; auto.
    match goal with |- context [commit ?x] => set (w2 := x) end.
    destruct (exec_all_frame (fetch component (seen r) o) (take_request i w))
      as (A1 & A2 & _ & A4).
    assert (E : commit w2 = w2).
    { unfold commit. destruct (lifecycle w2); auto.
      destruct (effect w2); auto. }
    rewrite E.
    replace (lifecycle w2) with (lifecycle w) by (symmetry; exact A1).
    replace (effect w2) with (effect w) by (symmetry; exact A2).
    replace (next_timer w2) with (next_timer w) by (symmetry; exact A4).
    auto.
  - cbn [step]. destruct (lifecycle w) eqn:El; rewrite ?El; auto.
    intros _. exact I.
Qed.

Lemma armed_once_reachable evs : armed_once (run (boot component) evs).
Proof.
  assert (H : forall w, armed_once w -> armed_once (run w evs)).
  { induction evs as [|ev evs IH]; intros w Hw; simpl; auto.
    apply IH, armed_once_step, Hw. }
  apply H. reflexivity.
Qed.

(** The interval of the leaderboard is cleared by the unmount only. *)
Lemma cleared_is_unmounted evs :
  cleared 0 (run (boot component) evs) ->
  lifecycle (run (boot component) evs) = Unmounted.
Proof.
  intros [Hlt Hne]. pose proof (armed_once_reachable evs) as H.
  unfold armed_once in H.
  destruct (lifecycle (run (boot component) evs)); auto.
  - lia.
  - destruct H as (e & He & Ht). exfalso. exact (Hne e He Ht).
Qed.

(** C5. [getRankIcon] is a function of the index alone: 0, 1 and 2 give
    three different trophy icons, and every index from 3 on gives the
    text "#N" with N = index + 1 in decimal; index 3 gives "#4". *)
Theorem rank_badge :
  (exists c0 c1 c2,
     getRankIcon 0 = Trophy c0 /\ getRankIcon 1 = Trophy c1 /\
     getRankIcon 2 = Trophy c2 /\
     c0 <> c1 /\ c0 <> c2 /\ c1 <> c2) /\
  (forall index : N, (3 <= index)%N ->
     getRankIcon index =
       Span "text-slate-400 font-semibold" ("#" ++ JS.digits (index + 1)) /\
     JS.parse_digits (JS.digits (index + 1)) = Some (index + 1)%N) /\
  getRankIcon 3 = Span "text-slate-400 font-semibold" "#4".
Proof.
  split; [|split].
  - do 3 eexists. repeat split; discriminate.
  - intros index H. split; [|apply parse_digits_digits].
    destruct index as [|[[p|p|]|[p|p|]|]]; try lia; reflexivity.
  - reflexivity.
Qed.

Lemma rank_badge_witness :
  (3 <= 11)%N /\
  getRankIcon 11 = Span "text-slate-400 font-semibold" "#12".
Proof.
  split; [lia|].
  exact (proj1 (proj1 (proj2 rank_badge) 11%N ltac:(lia))).
Defined.

(** C6. Whatever the server answers, the rows rendered after the fetch
    are the traders of [top_traders], one row each, in the server's
    order: the i-th row is the i-th trader with the badge of index i.
    Nothing sorts by [roi] or [portfolio_value]: the order A (roi 10),
    B (roi 20), C (roi 5) is rendered A, B, C. *)
Theorem server_order_rendered (host : JS.Host) :
  (forall (data : LeaderboardResponse) (s : State),
     let s' := apply_all (C := component)
                 (fetchLeaderboard tt (Resolved data)) s in
     traders s' = top_traders data /\
     map key (rows (render host s')) = map trader_id (top_traders data) /\
     map row_name (rows (render host s')) = map name (top_traders data) /\
     forall i : nat,
       nth_error (rows (render host s')) i =
       option_map (fun t => render_row host t (N.of_nat i))
         (nth_error (top_traders data) i)) /\
  map row_name
    (rows (render host
       (state (run (boot component)
                 [Mount; Settle 0 (Resolved Sample.board)])))) =
  ["A"; "B"; "C"].
Proof.
  split; [|reflexivity].
  intros data s s'. unfold s'. rewrite fetchLeaderboard_resolved.
  rewrite rows_render. cbn [traders].
  repeat split.
  - apply map_from_keys.
  - apply map_from_names.
  - intros i. rewrite map_from_nth. reflexivity.
Qed.

End LeaderboardClaims.

(** ** Claims about both pollers *)

Section PollerClaims.

Import React.

Local Abbreviation ticker := PriceTicker.component.
Local Abbreviation leaderboard := Leaderboard.component.

(** C2, as the code has it. The answer to a failed fetch leaves the
    current and the previous value as they are, sets the error to the
    message and sets loading to false; nothing else changes. *)
Theorem fetch_failure_update :
  (forall (w : World ticker) i r err,
     lifecycle w = Mounted -> nth_error (inflight w) i = Some r ->
     state (step w (Settle i (Rejected err))) =
     {| PriceTicker.priceData := PriceTicker.priceData (state w);
        PriceTicker.previousPrice := PriceTicker.previousPrice (state w);
        PriceTicker.loading := false;
        PriceTicker.error := Some "Failed to fetch price data" |}) /\
  (forall (w : World leaderboard) i r err,
     lifecycle w = Mounted -> nth_error (inflight w) i = Some r ->
     state (step w (Settle i (Rejected err))) =
     {| Leaderboard.traders := Leaderboard.traders (state w);
        Leaderboard.loading := false;
        Leaderboard.error := Some "Failed to fetch leaderboard" |}).
Proof.
  split; intros w i r err Hm Hr;
    rewrite (settle_mounted w i r (Rejected err) Hm Hr); reflexivity.
Qed.

Lemma fetch_failure_update_witness :
  let w := step (boot ticker) Mount in
  let v := step (boot leaderboard) Mount in
  (lifecycle w = Mounted /\ lifecycle v = Mounted) /\
  PriceTicker.error (state (step w (Settle 0 (Rejected Sample.timeout)))) =
    Some "Failed to fetch price data" /\
  Leaderboard.error (state (step v (Settle 0 (Rejected Sample.timeout)))) =
    Some "Failed to fetch leaderboard".
Proof.
  intros w v. split; [split; reflexivity|]. split.
  - rewrite (proj1 fetch_failure_update w 0 _ Sample.timeout
               eq_refl eq_refl).
    reflexivity.
  - rewrite (proj2 fetch_failure_update v 0 _ Sample.timeout
               eq_refl eq_refl).
    reflexivity.
Defined.

(** C2 fails as stated: the failure branch also writes the loading flag.
    When the first fetch fails, loading goes from true to false. *)
Lemma failure_clears_loading :
  let w := step (boot ticker) Mount in
  let w' := step w (Settle 0 (Rejected Sample.timeout)) in
  PriceTicker.loading (state w) = true /\
  PriceTicker.loading (state w') = false /\
  PriceTicker.loading (state w') <> PriceTicker.loading (state w).
Proof.
  cbv zeta. repeat split. intros H. vm_compute in H. discriminate H.
Qed.

(** C10. The message a failed fetch publishes is one constant string per
    poller, the same for every failure, whatever the error was and
    whatever the state and the closure were. *)
Theorem failure_message_constant :
  (forall c err s,
     PriceTicker.error
       (apply_all (C := ticker)
          (PriceTicker.fetchPrice c (Rejected err)) s) =
     Some "Failed to fetch price data") /\
  (forall c err s,
     Leaderboard.error
       (apply_all (C := leaderboard)
          (Leaderboard.fetchLeaderboard c (Rejected err)) s) =
     Some "Failed to fetch leaderboard").
Proof. split; reflexivity. Qed.

(** C7. Deactivation is the unmount: the cleanup of the effect clears
    the interval. From the unmount of a mounted poller on, whatever
    happens: the state stays as it was at the unmount; a tick of any
    interval changes nothing at all; the requests in flight at the
    unmount are still in flight, and the answer to a request, success or
    failure, uses the request up and leaves the state as it was, with no
    interval armed again. And once an interval of a run has been cleared,
    its tick never changes anything; the one interval of the leaderboard
    is cleared by the unmount only, so once it is cleared the state of the
    leaderboard is final. *)
Theorem deactivated_poller_is_silent :
  (forall (w : World ticker) evs,
     lifecycle w = Mounted ->
     let u := step w Unmount in
     (lifecycle u = Unmounted /\ effect u = None /\
      state u = state w /\ inflight u = inflight w) /\
     state (run u evs) = state w /\
     (forall id, step (run u evs) (Tick id) = run u evs) /\
     (forall i o,
        state (step (run u evs) (Settle i o)) = state w /\
        effect (step (run u evs) (Settle i o)) = None /\
        inflight (step (run u evs) (Settle i o)) =
          remove_nth i (inflight (run u evs)))) /\
  (forall (w : World leaderboard) evs,
     lifecycle w = Mounted ->
     let u := step w Unmount in
     (lifecycle u = Unmounted /\ effect u = None /\
      state u = state w /\ inflight u = inflight w) /\
     state (run u evs) = state w /\
     (forall id, step (run u evs) (Tick id) = run u evs) /\
     (forall i o,
        state (step (run u evs) (Settle i o)) = state w /\
        effect (step (run u evs) (Settle i o)) = None /\
        inflight (step (run u evs) (Settle i o)) =
          remove_nth i (inflight (run u evs)))) /\
  (forall evs1 evs2 id,
     let w := run (boot ticker) evs1 in
     cleared id w -> step (run w evs2) (Tick id) = run w evs2) /\
  (forall evs1 evs2 id,
     let w := run (boot leaderboard) evs1 in
     cleared id w -> step (run w evs2) (Tick id) = run w evs2) /\
  (forall evs1 evs2,
     let w := run (boot leaderboard) evs1 in
     cleared 0 w -> state (run w evs2) = state w).
Proof.
  split; [|split; [|split; [|split]]].
  - intros w evs Hm. exact (unmount_is_final w evs Hm).
  - intros w evs Hm. exact (unmount_is_final w evs Hm).
  - intros evs1 evs2 id w Hc.
    apply cleared_never_fires; [apply timers_ok_reachable | exact Hc].
  - intros evs1 evs2 id w Hc.
    apply cleared_never_fires; [apply timers_ok_reachable | exact Hc].
  - intros evs1 evs2 w Hc.
    apply (run_unmounted evs2 w), cleared_is_unmounted, Hc.
Qed.

(** The ticker is unmounted with two requests in flight, the leaderboard
    with one; the answers and the ticks that follow change no state. *)
Lemma deactivated_poller_is_silent_witness :
  let w := run (boot ticker) [Mount; Tick 0] in
  let v := run (boot leaderboard)
             [Mount; Settle 0 (Resolved Sample.board); Tick 0] in
  let late_w := [Tick 0; Settle 0 (Resolved (Sample.quote 50000%float));
                 Settle 0 (Rejected Sample.timeout)] in
  let late_v := [Settle 0 (Rejected Sample.timeout); Tick 0] in
  (lifecycle w = Mounted /\ lifecycle v = Mounted /\
   List.length (inflight w) = 2 /\ List.length (inflight v) = 1) /\
  (inflight (step w Unmount) = inflight w /\
   state (run (step w Unmount) late_w) = state w /\
   inflight (run (step w Unmount) late_w) = []) /\
  (inflight (step v Unmount) = inflight v /\
   state (run (step v Unmount) late_v) = state v /\
   inflight (run (step v Unmount) late_v) = []).
Proof.
  intros w v late_w late_v.
  split; [repeat split; reflexivity|]. split.
  - destruct (proj1 deactivated_poller_is_silent w late_w eq_refl)
      as ((_ & _ & _ & Hi) & Hs & _).
    split; [exact Hi|]. split; [exact Hs|reflexivity].
  - destruct (proj1 (proj2 deactivated_poller_is_silent) v late_v eq_refl)
      as ((_ & _ & _ & Hi) & Hs & _).
    split; [exact Hi|]. split; [exact Hs|reflexivity].
Defined.

(** C8, as the code has it. The loading flag is true from the start
    (there is no idle state); the answer to a fetch sets it to false,
    with the error absent on success and the message on failure; from
    then on it is false for ever: a tick starts a fetch without setting
    it again. After the unmount the component stays unmounted and its
    state no longer changes. *)
Theorem loading_is_cleared_once :
  (PriceTicker.loading (state (boot ticker)) = true /\
   Leaderboard.loading (state (boot leaderboard)) = true) /\
  (forall (w : World ticker) i r o,
     lifecycle w = Mounted -> nth_error (inflight w) i = Some r ->
     PriceTicker.loading (state (step w (Settle i o))) = false /\
     PriceTicker.error (state (step w (Settle i o))) =
       match o with
       | Resolved _ => None
       | Rejected _ => Some "Failed to fetch price data"
       end) /\
  (forall (w : World leaderboard) i r o,
     lifecycle w = Mounted -> nth_error (inflight w) i = Some r ->
     Leaderboard.loading (state (step w (Settle i o))) = false /\
     Leaderboard.error (state (step w (Settle i o))) =
       match o with
       | Resolved _ => None
       | Rejected _ => Some "Failed to fetch leaderboard"
       end) /\
  (forall (w : World ticker) evs,
     PriceTicker.loading (state w) = false ->
     PriceTicker.loading (state (run w evs)) = false) /\
  (forall (w : World leaderboard) evs,
     Leaderboard.loading (state w) = false ->
     Leaderboard.loading (state (run w evs)) = false) /\
  (forall (w : World ticker) evs,
     lifecycle w = Unmounted ->
     lifecycle (run w evs) = Unmounted /\ state (run w evs) = state w) /\
  (forall (w : World leaderboard) evs,
     lifecycle w = Unmounted ->
     lifecycle (run w evs) = Unmounted /\ state (run w evs) = state w).
Proof.
  split; [split; reflexivity|].
  split; [|split; [|split; [|split; [|split]]]].
  - intros w i r o Hm Hr. rewrite (settle_mounted w i r o Hm Hr).
    destruct o; split; reflexivity.
  - intros w i r o Hm Hr. rewrite (settle_mounted w i r o Hm Hr).
    destruct o; split; reflexivity.
  - intros w evs.
    apply (run_preserves (C := ticker)
             (fun s => PriceTicker.loading s = false)).
    intros c o s _. destruct o; reflexivity.
  - intros w evs.
    apply (run_preserves (C := leaderboard)
             (fun s => Leaderboard.loading s = false)).
    intros c o s _. destruct o; reflexivity.
  - intros w evs Hu. apply (run_unmounted evs w Hu).
  - intros w evs Hu. apply (run_unmounted evs w Hu).
Qed.

Lemma loading_is_cleared_once_witness :
  let w := run (boot leaderboard) [Mount; Settle 0 (Resolved Sample.board)] in
  Leaderboard.loading (state w) = false /\
  Leaderboard.loading (state (run w [Tick 0; Settle 0 (Rejected Sample.timeout)]))
    = false.
Proof.
  intros w. split; [reflexivity|].
  exact (proj1 (proj2 (proj2 (proj2 (proj2 loading_is_cleared_once)))) w
           [Tick 0; Settle 0 (Rejected Sample.timeout)] eq_refl).
Defined.

(** C8 fails as stated: after the first answer a tick starts a fetch, and
    while that request is in flight the loading flag is false. *)
Lemma tick_does_not_set_loading :
  let w := run (boot leaderboard)
             [Mount; Settle 0 (Resolved Sample.board); Tick 0] in
  List.length (inflight w) = 1 /\
  Leaderboard.loading (state w) = false /\
  Leaderboard.loading (state w) <> true.
Proof.
  cbv zeta. repeat split. intros H. vm_compute in H. discriminate H.
Qed.

End PollerClaims.

(** * Further properties *)

(** ** The machine *)

Section MachineCoverage.

Import React.
Context {C : Component}.
Implicit Types (w : World C) (ev : Event (Payload C)).

Lemma exec_all_console cs : forall w,
  console (fold_left exec cs w) = (console w ++ logged cs)%list.
Proof.
  induction cs as [|c cs IH]; intros w; cbn [fold_left].
  - unfold logged. cbn. rewrite app_nil_r. reflexivity.
  - rewrite IH. destruct c as [label err|x]; cbn [exec].
    + cbn [console]. unfold logged. cbn [flat_map].
      rewrite <- app_assoc. reflexivity.
    + unfold logged. cbn [flat_map app].
      destruct (lifecycle w); reflexivity.
Qed.

Lemma console_commit w : console (commit w) = console w.
Proof.
  unfold commit. destruct (lifecycle w); try reflexivity.
  destruct (effect w) as [e|]; try reflexivity.
  destruct (same_deps C (armed e) (deps C (state w))); reflexivity.
Qed.

Lemma settle_console w i r o :
  nth_error (inflight w) i = Some r ->
  console (step w (Settle i o)) =
  (console w ++ logged (fetch C (seen r) o))%list.
Proof.
  intros Hr. cbn [step]. rewrite Hr, console_commit, exec_all_console.
  reflexivity.
Qed.

Lemma commit_live w : live_while_mounted w -> live_while_mounted (commit w).
Proof.
  unfold live_while_mounted, commit. intros Hw.
  destruct (lifecycle w) eqn:El; rewrite ?El; auto.
  destruct (effect w) as [e|] eqn:Ee; rewrite ?El; auto.
  destruct (same_deps C (armed e) (deps C (state w))).
  - rewrite El, Ee. discriminate.
  - cbn. rewrite El. discriminate.
Qed.

Lemma step_live w ev : live_while_mounted w -> live_while_mounted (step w ev).
Proof.
  intros Hw. destruct ev as [|id|i o|].
  - unfold live_while_mounted in *. cbn [step].
    destruct (lifecycle w) eqn:El; rewrite ?El; auto.
    cbn. discriminate.
  - unfold live_while_mounted in *.
    destruct (tick_frame w id) as (-> & _ & -> & _). exact Hw.
  - cbn [step]. destruct (nth_error (inflight w) i) as [r|]; auto.
    apply commit_live. unfold live_while_mounted in *.
    destruct (exec_all_frame (fetch C (seen r) o) (take_request i w))
      as (-> & -> & _). exact Hw.
  - unfold live_while_mounted in *. cbn [step].
    destruct (lifecycle w) eqn:El; rewrite ?El; auto.
    reflexivity.
Qed.

Lemma live_reachable evs : live_while_mounted (run (boot C) evs).
Proof.
  assert (H : forall w, live_while_mounted w -> live_while_mounted (run w evs)).
  { induction evs as [|ev evs IH]; intros w Hw; simpl; auto.
    apply IH, step_live, Hw. }
  apply H. reflexivity.
Qed.

(** A poll of a mounted component with a live interval answers one
    request, and leaves the component mounted with a live interval. *)
Lemma poll_live w o :
  lifecycle w = Mounted -> effect w <> None ->
  (lifecycle (poll w o) = Mounted /\ effect (poll w o) <> None) /\
  exists c, state (poll w o) = apply_all (fetch C c o) (state w).
Proof.
  intros Hm He. destruct (effect w) as [e|] eqn:Ee; [clear He|congruence].
  assert (H1 : exists w1 r,
    poll w o = step w1 (Settle 0 o) /\ lifecycle w1 = Mounted /\
    effect w1 = Some e /\ nth_error (inflight w1) 0 = Some r /\
    state w1 = state w).
  { unfold poll. destruct (inflight w) as [|r0 rest] eqn:Hin.
    - rewrite Ee. exists (issue (timer e) (closure e) w).
      eexists. cbn [step]. rewrite Ee, Nat.eqb_refl.
      repeat split; auto. cbn [issue inflight]. rewrite Hin. reflexivity.
    - exists w, r0. rewrite Hin. auto. }
  destruct H1 as (w1 & r & -> & Hm1 & He1 & Hr1 & Hs1). split.
  - assert (L : live_while_mounted (step w1 (Settle 0 o))).
    { apply step_live. unfold live_while_mounted. rewrite Hm1, He1.
      discriminate. }
    assert (M : lifecycle (step w1 (Settle 0 o)) = Mounted).
    { cbn [step]. rewrite Hr1, lifecycle_commit.
      destruct (exec_all_frame (fetch C (seen r) o) (take_request 0 w1))
        as (-> & _). exact Hm1. }
    unfold live_while_mounted in L. rewrite M in L. auto.
  - exists (seen r). rewrite (settle_mounted w1 0 r o Hm1 Hr1), Hs1.
    reflexivity.
Qed.

Lemma polls_live os : forall w,
  lifecycle w = Mounted -> effect w <> None ->
  lifecycle (polls w os) = Mounted /\ effect (polls w os) <> None.
Proof.
  induction os as [|o os IH]; intros w Hm He; cbn; auto.
  destruct (poll_live w o Hm He) as [[Hm' He'] _]. apply IH; assumption.
Qed.

Lemma history_snoc {P : Type} (os : list (Outcome P)) (o : Outcome P) :
  history (os ++ [o])%list =
  match o with
  | Resolved d => (Some d, fst (history os))
  | Rejected _ => history os
  end.
Proof. unfold history. rewrite fold_left_app. reflexivity. Qed.

Lemma failed_last_snoc {P : Type} (os : list (Outcome P)) (o : Outcome P) :
  failed_last (os ++ [o])%list =
  match o with Resolved _ => false | Rejected _ => true end.
Proof.
  unfold failed_last. rewrite map_app. cbn [map]. rewrite last_last.
  reflexivity.
Qed.

End MachineCoverage.

(** ** The price ticker *)

Section TickerCoverage.

Import React PriceTicker.

Implicit Types (w : World component) (s : State).

Lemma fresh_settle w i r o :
  nth_error (inflight w) i = Some r ->
  fresh_closure w -> fresh_closure (step w (Settle i o)).
Proof.
  intros Hr Hw. cbn [step]. rewrite Hr.
  match goal with |- context [commit ?x] => set (w2 := x) end.
  destruct (exec_all_frame (fetch component (seen r) o) (take_request i w))
    as (A1 & A2 & _ & _).
  assert (L2 : lifecycle w2 = lifecycle w) by exact A1.
  assert (E2 : effect w2 = effect w) by exact A2.
  assert (S2 : lifecycle w <> Mounted -> state w2 = state w).
  { intros H. exact (exec_all_not_mounted _ (take_request i w) H). }
  clearbody w2. clear A1 A2.
  unfold commit. rewrite L2, E2.
  destruct (lifecycle w) eqn:El.
  - intros e He. rewrite E2 in He. rewrite S2 by discriminate. auto.
  - destruct (effect w) as [e|] eqn:Ee.
    + destruct (React.same_deps component (armed e)
                  (React.deps component (state w2))) eqn:E.
      * intros e' He'. rewrite E2 in He'. injection He' as <-.
        split; [apply same_deps_eq, E | apply (Hw e Ee)].
      * intros e' He'. cbn in He'. injection He' as <-. cbn. auto.
    + intros e He. rewrite E2 in He. discriminate He.
  - intros e He. rewrite E2 in He. rewrite S2 by discriminate. auto.
Qed.

Lemma fresh_step w ev : fresh_closure w -> fresh_closure (step w ev).
Proof.
  intros Hw. destruct ev as [|id|i o|].
  - cbn [step]. destruct (lifecycle w); auto.
    intros e He. cbn in He. injection He as <-. cbn. auto.
  - intros e He. destruct (tick_frame w id) as (_ & Hs & Hf & _).
    rewrite Hf in He. rewrite Hs. auto.
  - destruct (nth_error (inflight w) i) as [r|] eqn:Hr.
    + apply (fresh_settle w i r o Hr Hw).
    + cbn [step]. rewrite Hr. exact Hw.
  - cbn [step]. destruct (lifecycle w); auto.
    intros e He. discriminate He.
Qed.

Lemma fresh_reachable evs : fresh_closure (run (boot component) evs).
Proof.
  assert (H : forall w, fresh_closure w -> fresh_closure (run w evs)).
  { induction evs as [|ev evs IH]; intros w Hw; simpl; auto.
    apply IH, fresh_step, Hw. }
  apply H. intros e He. discriminate He.
Qed.

(** X7. In every run, overlapping or not, the fetch function of the live
    interval has closed over a payload with the price on display; so a
    request the interval starts, when it is answered before any other,
    sets previous from the price on display. *)
Theorem interval_sees_displayed_price (evs : list (Event PriceData)) :
  let w := run (boot component) evs in
  forall e, effect w = Some e ->
    option_map price (closure e) = option_map price (priceData (state w)) /\
    forall d,
      state (step (step w (Tick (timer e)))
               (Settle (List.length (inflight w)) (Resolved d))) =
      {| priceData := Some d;
         previousPrice := JS.or_null (option_map price (priceData (state w)));
         loading := false; error := None |}.
Proof.
  intros w e He.
  destruct (fresh_reachable evs e He) as [Ha Hc]. fold w in Ha.
  assert (Hp : option_map price (closure e) =
               option_map price (priceData (state w))).
  { rewrite <- Hc. exact Ha. }
  split; [exact Hp|]. intros d.
  assert (Hm : lifecycle w = Mounted).
  { pose proof (live_reachable (C := component) evs) as L. fold w in L.
    unfold live_while_mounted in L.
    destruct (lifecycle w); auto; rewrite He in L; discriminate L. }
  set (w1 := step w (Tick (timer e))).
  assert (H1 : lifecycle w1 = Mounted /\ state w1 = state w /\
               nth_error (inflight w1) (List.length (inflight w)) =
               Some {| issuer := timer e; seen := closure e |}).
  { unfold w1. cbn [step]. rewrite He, Nat.eqb_refl.
    split; [exact Hm|]. split; [reflexivity|].
    change (nth_error
              (inflight w ++ [{| issuer := timer e; seen := closure e |}])%list
              (List.length (inflight w)) =
            Some {| issuer := timer e; seen := closure e |}).
    rewrite nth_error_app2 by lia. rewrite Nat.sub_diag. reflexivity. }
  destruct H1 as (Hm1 & Hs1 & Hr1).
  rewrite (settle_mounted w1 _ _ (Resolved d) Hm1 Hr1), Hs1.
  cbn [seen]. rewrite fetchPrice_resolved, Hp. reflexivity.
Qed.

Lemma interval_sees_displayed_price_witness :
  let w := run (boot component)
             [Mount; Tick 0; Settle 1 (Resolved (Sample.quote 50000%float))] in
  option_map timer (effect w) = Some 1 /\
  List.length (inflight w) = 2 /\
  state (step (step w (Tick 1))
           (Settle 2 (Resolved (Sample.quote 51000%float)))) =
  {| priceData := Some (Sample.quote 51000%float);
     previousPrice := Some 50000%float;
     loading := false; error := None |}.
Proof.
  intros w. split; [reflexivity|]. split; [reflexivity|].
  exact (proj2 (interval_sees_displayed_price
                  [Mount; Tick 0;
                   Settle 1 (Resolved (Sample.quote 50000%float))]
                  _ eq_refl) (Sample.quote 51000%float)).
Defined.

(** X8. The effect depends on [priceData?.price]: a successful answer whose
    price is not the same value as the one the effect was armed with
    restarts the polling (the interval is cleared, a new fetch leaves at
    once with the new payload in its closure, a new interval is armed); an
    answer with the same price leaves the interval as it is. *)
Theorem price_change_restarts_polling
    (w : World component) (i : nat) (r : Request component)
    (e : Effect component) (d : PriceData) :
  lifecycle w = Mounted -> effect w = Some e ->
  nth_error (inflight w) i = Some r ->
  let w' := step w (Settle i (Resolved d)) in
  if same_deps (armed e) (Some (price d))
  then effect w' = Some e /\
       inflight w' = remove_nth i (inflight w) /\
       next_timer w' = next_timer w
  else effect w' =
         Some (Build_Effect component (next_timer w) (Some d)
                 (Some (price d))) /\
       inflight w' =
         (remove_nth i (inflight w) ++
          [Build_Request component (next_timer w) (Some d)])%list /\
       next_timer w' = S (next_timer w).
Proof.
  intros Hm He Hr w'. unfold w'. cbn [step]. rewrite Hr.
  match goal with |- context [commit ?x] => set (w2 := x) end.
  destruct (exec_all_frame (fetch component (seen r) (Resolved d))
              (take_request i w)) as (A1 & A2 & A3 & A4).
  assert (L2 : lifecycle w2 = Mounted) by (etransitivity; [exact A1|exact Hm]).
  assert (E2 : effect w2 = Some e) by (etransitivity; [exact A2|exact He]).
  assert (I2 : inflight w2 = remove_nth i (inflight w)) by exact A3.
  assert (N2 : next_timer w2 = next_timer w) by exact A4.
  assert (S2 : state w2 =
               {| priceData := Some d;
                  previousPrice := JS.or_null (option_map price (seen r));
                  loading := false; error := None |}).
  { exact (exec_all_mounted (fetch component (seen r) (Resolved d))
             (take_request i w) Hm). }
  clearbody w2. clear A1 A2 A3 A4.
  unfold commit. rewrite L2, E2.
  assert (D : React.deps component (state w2) = Some (price d)).
  { rewrite S2. reflexivity. }
  rewrite D. change (React.same_deps component) with same_deps.
  destruct (same_deps (armed e) (Some (price d))).
  - auto.
  - cbn. rewrite I2, N2, S2. auto.
Qed.

Lemma price_change_restarts_polling_witness :
  let w := step (boot component) Mount in
  let w' := step w (Settle 0 (Resolved (Sample.quote 50000%float))) in
  (lifecycle w = Mounted /\ option_map timer (effect w) = Some 0 /\
   map issuer (inflight w) = [0]) /\
  effect w' =
    Some (Build_Effect component 1 (Some (Sample.quote 50000%float))
            (Some 50000%float)) /\
  inflight w' =
    [Build_Request component 1 (Some (Sample.quote 50000%float))] /\
  next_timer w' = 2.
Proof.
  intros w w'. split; [repeat split|].
  exact (price_change_restarts_polling w 0 _ _
           (Sample.quote 50000%float) eq_refl eq_refl eq_refl).
Defined.

(** X9. A run without overlap, in closed form: the payload on display is the
    one of the last successful fetch, previous is [price || null] of the
    payload of the successful fetch before it, the error is shown exactly
    when the last fetch failed, and loading is true exactly while no
    fetch has been answered. *)
Theorem ticker_run_in_closed_form (os : list (Outcome PriceData)) :
  let w := polls (step (boot component) Mount) os in
  priceData (state w) = fst (history os) /\
  previousPrice (state w) = JS.or_null (option_map price (snd (history os))) /\
  loading (state w) = match os with [] => true | _ :: _ => false end /\
  error (state w) =
    if failed_last os then Some "Failed to fetch price data" else None.
Proof.
  induction os as [|o os IH] using rev_ind.
  - repeat split.
  - cbv zeta in *. destruct IH as (I1 & I2 & _ & _).
    rewrite polls_snoc, history_snoc, failed_last_snoc.
    assert (Hin : in_step (polls (step (boot component) Mount) os))
      by apply polls_in_step, in_step_mount.
    destruct (poll_in_step _ o Hin) as (_ & c & Hc & ->).
    unfold deps in Hc. rewrite I1 in Hc.
    assert (Hl : match (os ++ [o])%list with [] => true | _ :: _ => false end
                 = false) by (destruct os; reflexivity).
    rewrite Hl. destruct o as [d|err].
    + rewrite fetchPrice_resolved. cbn. rewrite Hc. auto.
    + rewrite fetchPrice_rejected. cbn. auto.
Qed.

Lemma screen_reachable (evs : list (Event PriceData)) :
  let s := state (run (boot component) evs) in
  (loading s = true -> s = initial) /\
  (loading s = false ->
   priceData s <> None \/ error s = Some "Failed to fetch price data").
Proof.
  apply (run_preserves (C := component)
           (fun s => (loading s = true -> s = initial) /\
                     (loading s = false ->
                      priceData s <> None \/
                      error s = Some "Failed to fetch price data"))).
  - intros c o s _. destruct o as [d|err].
    + rewrite fetchPrice_resolved. cbn. split; [discriminate|].
      intros _. left. discriminate.
    + rewrite fetchPrice_rejected. cbn. split; [discriminate|]. auto.
  - split; [reflexivity|discriminate].
Qed.

End TickerCoverage.

(** ** The leaderboard *)

Section LeaderboardCoverage.

Import React Leaderboard.

Implicit Types (w : World component) (s : State).

Lemma single_interval_step w ev :
  single_interval w -> single_interval (step w ev).
Proof.
  unfold single_interval. intros [Hl Hf]. destruct ev as [|id|i o|].
  - cbn [step]. destruct (lifecycle w) eqn:El.
    + destruct Hl as (Hn & He & Hi). cbn. rewrite Hn, Hi. cbn.
      split; [split; [reflexivity | eexists; split; reflexivity]|].
      repeat constructor.
    + rewrite El. auto.
    + rewrite El. auto.
  - assert (Hc : effect w = None \/ exists e, effect w = Some e)
      by (destruct (effect w); eauto).
    destruct Hc as [Ee|[e Ee]]; cbn [step]; rewrite Ee; [split; assumption|].
    destruct (Nat.eqb_spec (timer e) id) as [E|]; [|split; assumption].
    assert (Hm : lifecycle w = Mounted /\ timer e = 0).
    { destruct (lifecycle w).
      - destruct Hl as (_ & He & _). congruence.
      - destruct Hl as (_ & e' & He & Ht). split; congruence.
      - destruct Hl as (_ & He). congruence. }
    destruct Hm as [Hm Ht]. rewrite Hm in Hl.
    cbn [issue lifecycle effect next_timer inflight]. rewrite Hm.
    split; [exact Hl|]. apply Forall_app. split; auto.
    constructor; [|constructor]. cbn. congruence.
  - cbn [step]. destruct (nth_error (inflight w) i) as [r|] eqn:Hr; auto.
    match goal with |- context [commit ?x] => set (w2 := x) end.
    destruct (exec_all_frame (fetch component (seen r) o) (take_request i w))
      as (A1 & A2 & A3 & A4).
    assert (E : commit w2 = w2).
    { unfold commit. destruct (lifecycle w2); auto.
      destruct (effect w2); auto. }
    rewrite E.
    replace (lifecycle w2) with (lifecycle w) by (symmetry; exact A1).
    replace (effect w2) with (effect w) by (symmetry; exact A2).
    replace (next_timer w2) with (next_timer w) by (symmetry; exact A4).
    replace (inflight w2) with (remove_nth i (inflight w))
      by (symmetry; exact A3).
    split.
    { destruct (lifecycle w); try exact Hl.
      destruct Hl as (_ & _ & Hi). rewrite Hi in Hr.
      destruct i; discriminate Hr. }
    clear - Hf. revert i. induction Hf as [|x l Hx Hf IH]; intros [|i]; cbn;
      auto.
  - cbn [step]. destruct (lifecycle w) eqn:El; rewrite ?El; auto.
    cbn. destruct Hl as (Hn & _). auto.
Qed.

(** X11. The dependency array of the leaderboard is empty, so its effect runs
    once: in every run one interval is armed at most, and every request
    was issued by that one effect. *)
Theorem leaderboard_arms_one_interval
    (evs : list (Event LeaderboardResponse)) :
  let w := run (boot component) evs in
  next_timer w <= 1 /\
  (forall e, effect w = Some e -> timer e = 0) /\
  Forall (fun r => issuer r = 0) (inflight w).
Proof.
  assert (H : forall w, single_interval w -> single_interval (run w evs)).
  { induction evs as [|ev evs IH]; intros w Hw; simpl; auto.
    apply IH, single_interval_step, Hw. }
  specialize (H (boot component)).
  cbv zeta. destruct H as [Hl Hf].
  { split; [cbn; auto | constructor]. }
  split; [|split; [|exact Hf]].
  - destruct (lifecycle (run (boot component) evs));
      [destruct Hl as (-> & _) | destruct Hl as (-> & _)
      | destruct Hl as (-> & _)]; lia.
  - intros e He. destruct (lifecycle (run (boot component) evs)).
    + destruct Hl as (_ & Hn & _). congruence.
    + destruct Hl as (_ & e' & He' & Ht). congruence.
    + destruct Hl as (_ & Hn). congruence.
Qed.

Lemma leaderboard_arms_one_interval_witness :
  let w := run (boot component)
             [Mount; Tick 0; Settle 0 (Resolved Sample.board); Tick 0] in
  option_map timer (effect w) = Some 0 /\
  (forall e, effect w = Some e -> timer e = 0).
Proof.
  intros w. split; [reflexivity|].
  exact (proj1 (proj2 (leaderboard_arms_one_interval
                         [Mount; Tick 0; Settle 0 (Resolved Sample.board);
                          Tick 0]))).
Defined.

Lemma leaderboard_polls_snoc w (os : list (Outcome LeaderboardResponse)) o :
  polls w (os ++ [o]) = poll (polls w os) o.
Proof. unfold polls. rewrite fold_left_app. reflexivity. Qed.

Lemma fetchLeaderboard_failed c err s :
  apply_all (C := component) (fetchLeaderboard c (Rejected err)) s =
  {| traders := traders s; loading := false;
     error := Some "Failed to fetch leaderboard" |}.
Proof. reflexivity. Qed.

Lemma leaderboard_poll w o :
  lifecycle w = Mounted -> effect w <> None ->
  state (poll w o) =
  apply_all (C := component) (fetchLeaderboard tt o) (state w).
Proof.
  intros Hm He. destruct (poll_live w o Hm He) as (_ & c & ->).
  destruct c. reflexivity.
Qed.

(** X10. A run of the leaderboard whose fetches do not overlap, in closed
    form: the list on display is [top_traders] of the last successful
    fetch (empty before the first), the error is shown exactly when the
    last fetch failed, and loading is true exactly while no fetch has been
    answered. *)
Theorem leaderboard_run_in_closed_form
    (os : list (Outcome LeaderboardResponse)) :
  let w := polls (step (boot component) Mount) os in
  traders (state w) =
    match fst (history os) with
    | Some data => top_traders data
    | None => []
    end /\
  loading (state w) = match os with [] => true | _ :: _ => false end /\
  error (state w) =
    if failed_last os then Some "Failed to fetch leaderboard" else None.
Proof.
  induction os as [|o os IH] using rev_ind.
  - repeat split.
  - cbv zeta in *. destruct IH as (I1 & _ & _).
    rewrite leaderboard_polls_snoc, history_snoc, failed_last_snoc.
    destruct (polls_live (C := component) os (step (boot component) Mount)
                eq_refl ltac:(discriminate)) as [Hm He].
    rewrite (leaderboard_poll _ o Hm He).
    assert (Hl : match (os ++ [o])%list with [] => true | _ :: _ => false end
                 = false) by (destruct os; reflexivity).
    rewrite Hl. destruct o as [d|err].
    + rewrite fetchLeaderboard_resolved. cbn. auto.
    + rewrite fetchLeaderboard_failed. cbn [traders loading error].
      rewrite I1. auto.
Qed.

Lemma getRankIcon_from_3 (index : N) :
  (3 <= index)%N ->
  getRankIcon index =
  Span "text-slate-400 font-semibold" ("#" ++ JS.digits (index + 1)).
Proof.
  intros H. destruct index as [|[[p|p|]|[p|p|]|]]; try lia; reflexivity.
Qed.

Lemma digits_inj (a b : N) : JS.digits a = JS.digits b -> a = b.
Proof.
  intros H. apply (f_equal JS.parse_digits) in H.
  rewrite !parse_digits_digits in H. congruence.
Qed.

(** X12. Different positions never get the same badge: from the badge one can
    tell the rank. *)
Theorem getRankIcon_injective (i j : N) :
  getRankIcon i = getRankIcon j -> i = j.
Proof.
  assert (S : forall k, (k < 3)%N -> k = 0%N \/ k = 1%N \/ k = 2%N) by lia.
  destruct (N.ltb_spec i 3) as [Hi|Hi], (N.ltb_spec j 3) as [Hj|Hj].
  - destruct (S i Hi) as [-> | [-> | ->]], (S j Hj) as [-> | [-> | ->]];
      intros H; try reflexivity; discriminate H.
  - rewrite (getRankIcon_from_3 j Hj).
    destruct (S i Hi) as [-> | [-> | ->]]; intros H; discriminate H.
  - rewrite (getRankIcon_from_3 i Hi).
    destruct (S j Hj) as [-> | [-> | ->]]; intros H; discriminate H.
  - rewrite (getRankIcon_from_3 i Hi), (getRankIcon_from_3 j Hj).
    intros H. injection H as H. apply digits_inj in H. lia.
Qed.

Lemma getRankIcon_injective_witness :
  getRankIcon 11 = getRankIcon (10 + 1) /\ (11 = 10 + 1)%N.
Proof.
  split; [reflexivity|].
  exact (getRankIcon_injective 11 (10 + 1) eq_refl).
Defined.







End LeaderboardCoverage.

(** ** What is on the screen *)

Section ScreenCoverage.

Import React.

Local Abbreviation ticker := PriceTicker.component.
Local Abbreviation leaderboard := Leaderboard.component.

Lemma leaderboard_screen_reachable (evs : list (Event Leaderboard.LeaderboardResponse)) :
  let s := state (run (boot leaderboard) evs) in
  Leaderboard.loading s = true -> s = Leaderboard.initial.
Proof.
  apply (run_preserves (C := leaderboard)
           (fun s => Leaderboard.loading s = true -> s = Leaderboard.initial)).
  - intros c o s _. destruct o; cbn; discriminate.
  - reflexivity.
Qed.

Lemma map_from_length {A B : Type} (f : A -> N -> B) (l : list A) :
  forall k, List.length (Leaderboard.map_from f k l) = List.length l.
Proof. induction l as [|x l IH]; intros k; cbn; auto. Qed.

(** X1. A failed fetch leaves what was on display where it is and adds the
    error line: the card of the ticker, indicator included, and the rows
    of the leaderboard are those of the render before. *)
Theorem failure_keeps_the_screen (host : JS.Host) :
  (forall (w : World ticker) i r err,
     lifecycle w = Mounted -> nth_error (inflight w) i = Some r ->
     let v := PriceTicker.render host (state w) in
     let v' := PriceTicker.render host
                 (state (step w (Settle i (Rejected err)))) in
     PriceTicker.card v' = PriceTicker.card v /\
     PriceTicker.error_line v' = Some "Failed to fetch price data" /\
     PriceTicker.loading_line v' = None) /\
  (forall (w : World leaderboard) i r err,
     lifecycle w = Mounted -> nth_error (inflight w) i = Some r ->
     let v := Leaderboard.render host (state w) in
     let v' := Leaderboard.render host
                 (state (step w (Settle i (Rejected err)))) in
     Leaderboard.rows v' = Leaderboard.rows v /\
     Leaderboard.error_line v' = Some "Failed to fetch leaderboard" /\
     Leaderboard.loading_line v' = None /\
     Leaderboard.empty_line v' = None).
Proof.
  split; intros w i r err Hm Hr v v'; unfold v, v';
    rewrite (settle_mounted w i r (Rejected err) Hm Hr).
  - change (fetch ticker (seen r) (Rejected err))
      with (PriceTicker.fetchPrice (seen r) (Rejected err)).
    rewrite fetchPrice_rejected.
    destruct (state w) as [pd pp l e]. destruct pd; repeat split.
  - change (fetch leaderboard (seen r) (Rejected err))
      with (Leaderboard.fetchLeaderboard (seen r) (Rejected err)).
    rewrite fetchLeaderboard_failed.
    destruct (state w) as [ts l e]. destruct ts; repeat split.
Qed.

Lemma failure_keeps_the_screen_witness :
  let w := run (boot leaderboard) [Mount; Settle 0 (Resolved Sample.board)] in
  let w' := run w [Tick 0; Settle 0 (Rejected Sample.timeout)] in
  (lifecycle (step w (Tick 0)) = Mounted /\
   List.length (inflight (step w (Tick 0))) = 1) /\
  map Leaderboard.row_name
    (Leaderboard.rows (Leaderboard.render Sample.host (state w'))) =
    ["A"; "B"; "C"] /\
  Leaderboard.error_line (Leaderboard.render Sample.host (state w')) =
    Some "Failed to fetch leaderboard".
Proof.
  intros w w'. split; [split; reflexivity|].
  destruct (proj2 (failure_keeps_the_screen Sample.host)
              (step w (Tick 0)) 0 _ Sample.timeout eq_refl eq_refl)
    as (H1 & H2 & _).
  split; [|exact H2]. unfold w'. cbn [run fold_left].
  rewrite H1. reflexivity.
Defined.

(** X2. A successful fetch removes the error line and the loading line. The
    ticker then shows the card of the new payload: its symbol, its price,
    bid, ask, high, low and volume, and the indicator computed from the new
    price and the price the fetch function closed over, or no indicator
    when that price is falsy or missing. The leaderboard shows the rows of
    the traders received, in their order, or, when the server sent an empty
    list, the "No traders found" line and no row. *)
Theorem success_clears_the_error (host : JS.Host) :
  (forall (w : World ticker) i r d,
     lifecycle w = Mounted -> nth_error (inflight w) i = Some r ->
     let v' := PriceTicker.render host
                 (state (step w (Settle i (Resolved d)))) in
     PriceTicker.error_line v' = None /\
     PriceTicker.loading_line v' = None /\
     PriceTicker.card v' =
       Some {| PriceTicker.card_symbol := PriceTicker.symbol d;
               PriceTicker.card_price :=
                 "$" ++ JS.toLocaleString host (PriceTicker.price d);
               PriceTicker.card_delta :=
                 match JS.or_null (option_map PriceTicker.price (seen r)) with
                 | Some p =>
                     let up := JS.ge (PriceTicker.price d - p)%float 0%float in
                     Some {| PriceTicker.delta_class :=
                               "flex items-center gap-1 " ++
                               (if up then "text-green-400"
                                else "text-red-400");
                             PriceTicker.delta_icon :=
                               if up then PriceTicker.TrendingUp
                               else PriceTicker.TrendingDown;
                             PriceTicker.delta_text :=
                               (if up then "+" else "") ++
                               JS.toFixed host
                                 ((PriceTicker.price d - p) / p * 100)%float 2
                               ++ "%" |}
                 | None => None
                 end;
               PriceTicker.card_bid :=
                 "$" ++ JS.toLocaleString host (PriceTicker.bid d);
               PriceTicker.card_ask :=
                 "$" ++ JS.toLocaleString host (PriceTicker.ask d);
               PriceTicker.card_high :=
                 "$" ++ JS.toLocaleString host (PriceTicker.high d);
               PriceTicker.card_low :=
                 "$" ++ JS.toLocaleString host (PriceTicker.low d);
               PriceTicker.card_volume :=
                 JS.toLocaleString host (PriceTicker.volume d) ++ " BTC" |}) /\
  (forall (w : World leaderboard) i r data,
     lifecycle w = Mounted -> nth_error (inflight w) i = Some r ->
     let v' := Leaderboard.render host
                 (state (step w (Settle i (Resolved data)))) in
     Leaderboard.error_line v' = None /\
     Leaderboard.loading_line v' = None /\
     Leaderboard.rows v' =
       Leaderboard.map_from (Leaderboard.render_row host) 0
         (Leaderboard.top_traders data) /\
     Leaderboard.empty_line v' =
       match Leaderboard.top_traders data with
       | [] => Some "No traders found. Register some traders to see the leaderboard!"
       | _ :: _ => None
       end).
Proof.
  split; intros w i r d Hm Hr v'; unfold v';
    rewrite (settle_mounted w i r (Resolved d) Hm Hr).
  - change (fetch ticker (seen r) (Resolved d))
      with (PriceTicker.fetchPrice (seen r) (Resolved d)).
    rewrite fetchPrice_resolved. split; [reflexivity|]. split; [reflexivity|].
    unfold PriceTicker.render. cbn [PriceTicker.priceData PriceTicker.card].
    do 2 f_equal.
    unfold PriceTicker.render_delta, PriceTicker.isPositive,
      PriceTicker.priceChangePercent, PriceTicker.priceChange.
    cbn [PriceTicker.priceData PriceTicker.previousPrice].
    destruct (JS.or_null (option_map PriceTicker.price (seen r)))
      as [p|] eqn:Ep; [|reflexivity].
    destruct (or_null_truthy _ _ Ep) as [_ Ht]. rewrite Ht. reflexivity.
  - change (fetch leaderboard (seen r) (Resolved d))
      with (Leaderboard.fetchLeaderboard (seen r) (Resolved d)).
    rewrite fetchLeaderboard_resolved.
    split; [reflexivity|]. split; [|split].
    + cbn. destruct (Leaderboard.top_traders d); reflexivity.
    + cbn. destruct (Leaderboard.top_traders d); reflexivity.
    + cbn. destruct (Leaderboard.top_traders d); reflexivity.
Qed.

Lemma success_clears_the_error_witness :
  let w := run (boot leaderboard)
             [Mount; Settle 0 (Rejected Sample.timeout); Tick 0] in
  let nobody := {| Leaderboard.top_traders := [];
                   Leaderboard.count := 0%float |} in
  let v' := Leaderboard.render Sample.host
              (state (step w (Settle 0 (Resolved nobody)))) in
  let t := run (boot ticker)
             [Mount; Settle 0 (Resolved (Sample.quote 50000%float))] in
  let c' := PriceTicker.card
              (PriceTicker.render Sample.host
                 (state (step t (Settle 0
                                   (Resolved (Sample.quote 51000%float)))))) in
  (lifecycle w = Mounted /\ List.length (inflight w) = 1 /\
   Leaderboard.error_line (Leaderboard.render Sample.host (state w)) =
     Some "Failed to fetch leaderboard" /\
   lifecycle t = Mounted /\ List.length (inflight t) = 1) /\
  (Leaderboard.error_line v' = None /\
   Leaderboard.loading_line v' = None /\
   Leaderboard.rows v' = [] /\
   Leaderboard.empty_line v' =
     Some "No traders found. Register some traders to see the leaderboard!") /\
  option_map PriceTicker.card_symbol c' = Some "BTCUSDT" /\
  option_map PriceTicker.delta_text
    (match c' with Some c => PriceTicker.card_delta c | None => None end) =
    Some "+2.00%".
Proof.
  intros w nobody v' t c'. split; [repeat split|]. split.
  - exact (proj2 (success_clears_the_error Sample.host) w 0 _ nobody
             eq_refl eq_refl).
  - destruct (proj1 (success_clears_the_error Sample.host) t 0 _
                (Sample.quote 51000%float) eq_refl eq_refl) as (_ & _ & Hc).
    split.
    + etransitivity;
        [exact (f_equal (option_map PriceTicker.card_symbol) Hc)
        |reflexivity].
    + etransitivity;
        [exact (f_equal
                  (fun c => option_map PriceTicker.delta_text
                              (match c with
                               | Some c => PriceTicker.card_delta c
                               | None => None
                               end)) Hc)
        |reflexivity].
Defined.

(** X3. The card is never blank: in every state the ticker can reach, its
    render shows the loading line, the error line or the price card; in
    every state whatsoever the leaderboard shows the loading line, the
    error line, the "No traders found" line or at least one row. *)
Theorem something_is_on_the_screen (host : JS.Host) :
  (forall evs : list (Event PriceTicker.PriceData),
     let v := PriceTicker.render host (state (run (boot ticker) evs)) in
     PriceTicker.loading_line v <> None \/
     PriceTicker.error_line v <> None \/
     PriceTicker.card v <> None) /\
  (forall s : Leaderboard.State,
     let v := Leaderboard.render host s in
     Leaderboard.loading_line v <> None \/
     Leaderboard.error_line v <> None \/
     Leaderboard.empty_line v <> None \/
     Leaderboard.rows v <> []).
Proof.
  split.
  - intros evs v. destruct (screen_reachable evs) as [H1 H2].
    unfold v. destruct (state (run (boot ticker) evs)) as [pd pp l e].
    cbn in *. destruct pd as [d|].
    + right. right. discriminate.
    + destruct l.
      * left. discriminate.
      * right. left. destruct (H2 eq_refl) as [H|H]; [congruence|].
        rewrite H. discriminate.
  - intros [ts l e] v. unfold v. cbn. destruct ts as [|t ts].
    + destruct l; [left; discriminate|].
      destruct (JS.truthy_message e) eqn:E.
      * right. left. destruct e; [discriminate|discriminate E].
      * right. right. left. discriminate.
    + right. right. right. discriminate.
Qed.

(** X4. While the loading line is shown nothing else is: in every state a
    component can reach, a render with the loading line has no error
    line, no card, no row and no "No traders found" line, and the state
    is still the initial one. *)
Theorem loading_line_stands_alone (host : JS.Host) :
  (forall evs : list (Event PriceTicker.PriceData),
     let s := state (run (boot ticker) evs) in
     let v := PriceTicker.render host s in
     PriceTicker.loading_line v <> None ->
     s = PriceTicker.initial /\
     PriceTicker.error_line v = None /\ PriceTicker.card v = None) /\
  (forall evs : list (Event Leaderboard.LeaderboardResponse),
     let s := state (run (boot leaderboard) evs) in
     let v := Leaderboard.render host s in
     Leaderboard.loading_line v <> None ->
     s = Leaderboard.initial /\
     Leaderboard.error_line v = None /\
     Leaderboard.empty_line v = None /\ Leaderboard.rows v = []).
Proof.
  split.
  - intros evs s v H. destruct (screen_reachable evs) as [H1 _].
    fold s in H1. assert (E : s = PriceTicker.initial).
    { apply H1. unfold v in H. destruct s as [pd pp l e]. cbn in *.
      destruct pd; [congruence|]. destruct l; congruence. }
    unfold v. rewrite E. repeat split.
  - intros evs s v H. pose proof (leaderboard_screen_reachable evs) as H1.
    fold s in H1. assert (E : s = Leaderboard.initial).
    { apply H1. unfold v in H. destruct s as [ts l e]. cbn in *.
      destruct ts; [|congruence]. destruct l; congruence. }
    unfold v. rewrite E. repeat split.
Qed.

Lemma loading_line_stands_alone_witness :
  let s := state (run (boot ticker) [Mount; Tick 0]) in
  PriceTicker.loading_line (PriceTicker.render Sample.host s) <> None /\
  s = PriceTicker.initial.
Proof.
  intros s.
  assert (H : PriceTicker.loading_line (PriceTicker.render Sample.host s)
              <> None) by discriminate.
  split; [exact H|].
  exact (proj1 (proj1 (loading_line_stands_alone Sample.host)
                  [Mount; Tick 0] H)).
Defined.

(** X5. No timer is left behind: in every run an interval is live while the
    component is mounted, and none is before the mount or after the
    unmount. *)
Theorem interval_lives_while_mounted :
  (forall evs : list (Event PriceTicker.PriceData),
     let w := run (boot ticker) evs in
     (lifecycle w = Mounted -> effect w <> None) /\
     (lifecycle w <> Mounted -> effect w = None)) /\
  (forall evs : list (Event Leaderboard.LeaderboardResponse),
     let w := run (boot leaderboard) evs in
     (lifecycle w = Mounted -> effect w <> None) /\
     (lifecycle w <> Mounted -> effect w = None)).
Proof.
  split; intros evs w.
  - pose proof (live_reachable (C := ticker) evs) as L. fold w in L.
    unfold live_while_mounted in L.
    destruct (lifecycle w); split; intros H; congruence.
  - pose proof (live_reachable (C := leaderboard) evs) as L. fold w in L.
    unfold live_while_mounted in L.
    destruct (lifecycle w); split; intros H; congruence.
Qed.

Lemma interval_lives_while_mounted_witness :
  let w := run (boot ticker)
             [Mount; Settle 0 (Resolved (Sample.quote 50000%float)); Unmount;
              Settle 0 (Resolved (Sample.quote 51000%float))] in
  lifecycle w <> Mounted /\ effect w = None.
Proof.
  intros w. assert (H : lifecycle w <> Mounted) by discriminate.
  split; [exact H|].
  exact (proj2 (proj1 interval_lives_while_mounted
                  [Mount; Settle 0 (Resolved (Sample.quote 50000%float));
                   Unmount;
                   Settle 0 (Resolved (Sample.quote 51000%float))]) H).
Defined.

(** X6. What the console receives: every event prints nothing, except the
    answer to a failed fetch, which prints one line with the error it was
    rejected with, whether the component is still mounted or not. *)
Theorem failures_are_logged_once :
  (forall (w : World ticker) ev,
     console (step w ev) =
     (console w ++
      match ev with
      | Settle i (Rejected err) =>
          match nth_error (inflight w) i with
          | Some _ => [("Error fetching price:", err)]
          | None => []
          end
      | _ => []
      end)%list) /\
  (forall (w : World leaderboard) ev,
     console (step w ev) =
     (console w ++
      match ev with
      | Settle i (Rejected err) =>
          match nth_error (inflight w) i with
          | Some _ => [("Error fetching leaderboard:", err)]
          | None => []
          end
      | _ => []
      end)%list).
Proof.
  split; intros w ev; destruct ev as [|id|i o|].
  all: try (rewrite app_nil_r; cbn [step]).
  - destruct (lifecycle w); reflexivity.
  - destruct (effect w) as [e|]; [destruct (Nat.eqb (timer e) id)|];
      reflexivity.
  - destruct (nth_error (inflight w) i) as [r|] eqn:Hr.
    + rewrite (settle_console w i r o Hr). destruct o; reflexivity.
    + cbn [step]. rewrite Hr. destruct o; rewrite app_nil_r; reflexivity.
  - destruct (lifecycle w); reflexivity.
  - destruct (lifecycle w); reflexivity.
  - destruct (effect w) as [e|]; [destruct (Nat.eqb (timer e) id)|];
      reflexivity.
  - destruct (nth_error (inflight w) i) as [r|] eqn:Hr.
    + rewrite (settle_console w i r o Hr). destruct o; reflexivity.
    + cbn [step]. rewrite Hr. destruct o; rewrite app_nil_r; reflexivity.
  - destruct (lifecycle w); reflexivity.
Qed.

(** X15. The bar highlights the entry whose path is exactly the current
    [pathname], so never both: "Dashboard" on "/", "Screener" on
    "/screener", none on any other path. *)
Theorem navbar_highlights_exact_path (pathname : string) :
  Navbar.highlighted pathname =
  if String.eqb pathname "/" then ["Dashboard"]
  else if String.eqb pathname "/screener" then ["Screener"]
  else [].
Proof.
  unfold Navbar.highlighted, Navbar.render, Navbar.isActive.
  destruct (String.eqb_spec pathname "/") as [->|H1]; [reflexivity|].
  destruct (String.eqb_spec pathname "/screener") as [->|H2]; reflexivity.
Qed.

End ScreenCoverage.

Section IndicatorCoverage.

Import React PriceTicker.

(** X16. The indicator is shown exactly when a previous price is held. In every
    state the ticker can reach that price is truthy (never [0] or [NaN],
    so the percentage is never a division by zero) and a payload is on
    display; the text of the indicator is the percentage followed by "%",
    with a "+" in front when the change is not negative. *)
Theorem indicator_needs_a_previous_price (host : JS.Host)
    (evs : list (Event PriceData)) :
  let s := state (run (boot component) evs) in
  (previousPrice s = None -> indicator host s = None) /\
  (forall p, previousPrice s = Some p ->
     JS.ToBoolean p = true /\
     exists dl, indicator host s = Some dl /\
       delta_icon dl = (if isPositive s then TrendingUp else TrendingDown) /\
       delta_text dl =
         (if isPositive s then "+" else "") ++
         JS.toFixed host ((priceChange s / p) * 100)%float 2 ++ "%").
Proof.
  intros s. pose proof (previous_ok_reachable evs) as Hok. fold s in Hok.
  unfold previous_ok in Hok. unfold indicator, render. cbn [card].
  split.
  - intros Hp. destruct (priceData s); [|reflexivity].
    cbn [card_delta]. unfold render_delta. rewrite Hp. reflexivity.
  - intros p Hp. rewrite Hp in Hok. destruct Hok as [Ht Hd].
    split; [exact Ht|].
    destruct (priceData s) as [d|] eqn:Ed; [|congruence].
    cbn [card_delta]. unfold render_delta. rewrite Hp.
    eexists. split; [reflexivity|]. cbn [delta_icon delta_text].
    split; [reflexivity|].
    unfold priceChangePercent. rewrite Ed, Hp, Ht. reflexivity.
Qed.

Lemma indicator_needs_a_previous_price_witness :
  let s := state (run (boot component)
                    [Mount; Settle 0 (Resolved (Sample.quote 51000%float));
                     Settle 0 (Resolved (Sample.quote 50000%float))]) in
  previousPrice s = Some 51000%float /\
  exists dl, indicator Sample.host s = Some dl /\
    delta_icon dl = TrendingDown /\ delta_text dl = "-1.96%".
Proof.
  intros s. split; [reflexivity|].
  destruct (proj2 (indicator_needs_a_previous_price Sample.host
                     [Mount; Settle 0 (Resolved (Sample.quote 51000%float));
                      Settle 0 (Resolved (Sample.quote 50000%float))])
              51000%float eq_refl) as (_ & dl & H1 & H2 & H3).
  exists dl. split; [exact H1|]. split; [exact H2|]. exact H3.
Defined.

Lemma something_is_on_the_screen_witness :
  let v := PriceTicker.render Sample.host
             (state (run (boot component)
                       [Mount; Settle 0 (Rejected Sample.timeout)])) in
  error_line v = Some "Failed to fetch price data" /\
  (loading_line v <> None \/ error_line v <> None \/ card v <> None).
Proof.
  intros v. split; [reflexivity|].
  exact (proj1 (something_is_on_the_screen Sample.host)
           [Mount; Settle 0 (Rejected Sample.timeout)]).
Defined.

End IndicatorCoverage.
